(** * Quiz generation and grading flow of the student learning platform

    A shallow embedding of [quiz/routes_quiz.py]: the helpers
    [get_latest_doc], [clamp] and [extract_json_block], the three request
    handlers of the quiz state machine ([start_quiz], [show_question],
    [submit_answer]) and the result page ([show_result]), together with the
    properties the specification states about them; and, at the end, of the
    registration and login views of [auth/routes_auth.py].

    Modelling conventions.
    - Python [str] values are Rocq strings and are taken over the ASCII
      range; on it [str.strip], [str.upper], [str.lower], [str.find],
      [str.rfind], slicing and [int()] are as defined below.
    - Python exceptions are values of an error monad ([Raise]); the
      handlers are functions from the request data and the session (and the
      table of quiz results) to a response and the new session (and table).
    - The interpreter services the blueprint calls but does not define
      ([json.loads], [str()] of a value that is not a string, and the
      Generation Client) are variables of the sections below, so every
      theorem there holds whatever they return. *)

From Stdlib Require Import ZArith List String Ascii Bool Lia.
From Stdlib Require Import Numbers.DecimalString Floats.SpecFloat.
Import ListNotations.

Local Open Scope string_scope.
Local Open Scope Z_scope.

Set Warnings "-register-all".

(* ================================================================== *)
(** * Python strings *)
(* ================================================================== *)

Module PyStr.

(** The ASCII characters [str.strip] removes: TAB, LF, VT, FF, CR, the
    four separators FS, GS, RS, US and the space. *)
Definition is_space (c : ascii) : bool :=
  let n := nat_of_ascii c in
  ((9 <=? n) && (n <=? 13) || (28 <=? n) && (n <=? 32))%nat.

Fixpoint lstrip (s : string) : string :=
  match s with
  | EmptyString => EmptyString
  | String c s' => if is_space c then lstrip s' else s
  end.

Fixpoint rstrip (s : string) : string :=
  match s with
  | EmptyString => EmptyString
  | String c s' =>
      match rstrip s' with
      | EmptyString => if is_space c then EmptyString else String c EmptyString
      | r => String c r
      end
  end.

Definition strip (s : string) : string := rstrip (lstrip s).

Definition upper_char (c : ascii) : ascii :=
  let n := nat_of_ascii c in
  if ((97 <=? n) && (n <=? 122))%nat then ascii_of_nat (n - 32) else c.

Definition lower_char (c : ascii) : ascii :=
  let n := nat_of_ascii c in
  if ((65 <=? n) && (n <=? 90))%nat then ascii_of_nat (n + 32) else c.

Fixpoint map_chars (f : ascii -> ascii) (s : string) : string :=
  match s with
  | EmptyString => EmptyString
  | String c s' => String (f c) (map_chars f s')
  end.

Definition upper : string -> string := map_chars upper_char.
Definition lower : string -> string := map_chars lower_char.

(** [s.startswith(p)] *)
Definition startswith (s p : string) : bool := String.prefix p s.

Fixpoint take (n : nat) (s : string) : string :=
  match n, s with
  | S n', String c s' => String c (take n' s')
  | _, _ => EmptyString
  end.

Fixpoint drop (n : nat) (s : string) : string :=
  match n, s with
  | S n', String _ s' => drop n' s'
  | _, _ => s
  end.

(** Offset of the first occurrence of [sub] in [s]. *)
Fixpoint find_first (sub s : string) : option nat :=
  if String.prefix sub s then Some 0%nat
  else match s with
       | EmptyString => None
       | String _ s' => option_map S (find_first sub s')
       end.

(** Offset of the last occurrence of [sub] in [s]. *)
Fixpoint find_last (sub s : string) : option nat :=
  match s with
  | EmptyString => if String.prefix sub EmptyString then Some 0%nat else None
  | String _ s' =>
      match find_last sub s' with
      | Some n => Some (S n)
      | None => if String.prefix sub s then Some 0%nat else None
      end
  end.

(** [s.find(sub)] and [s.rfind(sub)]: the offset, or -1. *)
Definition find (s sub : string) : Z :=
  match find_first sub s with Some n => Z.of_nat n | None => -1 end.

Definition rfind (s sub : string) : Z :=
  match find_last sub s with Some n => Z.of_nat n | None => -1 end.

(** A slice bound as Python resolves it against a length: a negative
    bound counts from the end, and both are cut to [0, len]. *)
Definition slice_bound (len i : Z) : nat :=
  Z.to_nat (if i <? 0 then Z.max 0 (len + i) else Z.min i len).

(** [s[lo:hi]] *)
Definition slice (s : string) (lo hi : Z) : string :=
  let len := Z.of_nat (String.length s) in
  let a := slice_bound len lo in
  let b := slice_bound len hi in
  take (b - a) (drop a s).

(** The characters of [s], as iteration over a [str] yields them. *)
Fixpoint chars (s : string) : list string :=
  match s with
  | EmptyString => []
  | String c s' => String c EmptyString :: chars s'
  end.

(** [str(n)] for an [int]. *)
Definition of_int (n : Z) : string := NilEmpty.string_of_int (Z.to_int n).

Definition is_digit (c : ascii) : bool :=
  let n := nat_of_ascii c in ((48 <=? n) && (n <=? 57))%nat.

Definition digit_value (c : ascii) : Z := Z.of_nat (nat_of_ascii c) - 48.

(** The digits of a decimal literal after its first digit: digits, each
    optionally preceded by one underscore. *)
Fixpoint int_digits (acc : Z) (s : string) : option Z :=
  match s with
  | EmptyString => Some acc
  | String c s' =>
      if is_digit c then int_digits (10 * acc + digit_value c) s'
      else if Ascii.eqb c "_" then
        match s' with
        | String d s'' =>
            if is_digit d then int_digits (10 * acc + digit_value d) s''
            else None
        | EmptyString => None
        end
      else None
  end.

Definition int_unsigned (s : string) : option Z :=
  match s with
  | String c s' => if is_digit c then int_digits (digit_value c) s' else None
  | EmptyString => None
  end.

(** The ASCII characters [int()] skips around a literal: TAB, LF, VT, FF,
    CR and the space.  Unlike [str.strip] it does not skip the separators
    FS, GS, RS, US. *)
Definition is_int_space (c : ascii) : bool :=
  let n := nat_of_ascii c in
  ((9 <=? n) && (n <=? 13) || (n =? 32))%nat.

Fixpoint int_lskip (s : string) : string :=
  match s with
  | EmptyString => EmptyString
  | String c s' => if is_int_space c then int_lskip s' else s
  end.

Fixpoint int_rskip (s : string) : string :=
  match s with
  | EmptyString => EmptyString
  | String c s' =>
      match int_rskip s' with
      | EmptyString =>
          if is_int_space c then EmptyString else String c EmptyString
      | r => String c r
      end
  end.

Fixpoint count_digits (s : string) : nat :=
  match s with
  | EmptyString => O
  | String c s' => if is_digit c then S (count_digits s') else count_digits s'
  end.

(** [sys.get_int_max_str_digits()]: the interpreter's default limit on the
    digits of a decimal literal that [int()] converts. *)
Definition int_max_str_digits : nat := 4300.

(** [int(s)] for a [str]: the whitespace around the literal is skipped,
    then an optional sign and a decimal literal are read; [None] stands for
    the [ValueError] raised on anything else, a literal of more than
    [int_max_str_digits] digits included. *)
Definition int_of_str (s : string) : option Z :=
  let body := int_rskip (int_lskip s) in
  if (int_max_str_digits <? count_digits body)%nat then None
  else
    match body with
    | String "-" s' => option_map Z.opp (int_unsigned s')
    | String "+" s' => int_unsigned s'
    | s' => int_unsigned s'
    end.

(** [c * n] for a character. *)
Fixpoint repeat_char (c : ascii) (n : nat) : string :=
  match n with
  | O => EmptyString
  | S n' => String c (repeat_char c n')
  end.

End PyStr.

Example strip_example : PyStr.strip "  b
 " = "b".
Proof. reflexivity. Qed.

Example int_separator_rejected :
  PyStr.int_of_str (String (ascii_of_nat 28) "7") = None /\
  PyStr.int_of_str (String "7" (String (ascii_of_nat 31) "")) = None /\
  PyStr.int_of_str (String (ascii_of_nat 11) "7 ") = Some 7.
Proof. repeat split; reflexivity. Qed.

Example int_digit_limit :
  PyStr.int_of_str (PyStr.repeat_char "1" 4301) = None /\
  PyStr.int_of_str (" -" ++ PyStr.repeat_char "0" 4301) = None.
Proof. split; vm_compute; reflexivity. Qed.

Example int_examples :
  PyStr.int_of_str " 12 " = Some 12 /\ PyStr.int_of_str "-3" = Some (-3) /\
  PyStr.int_of_str "1_0" = Some 10 /\ PyStr.int_of_str "abc" = None /\
  PyStr.int_of_str "" = None /\ PyStr.int_of_str "1__0" = None /\
  PyStr.int_of_str "4.5" = None /\ PyStr.of_int (-42) = "-42".
Proof. repeat split; reflexivity. Qed.

(* ================================================================== *)
(** * Python values and exceptions *)
(* ================================================================== *)

(** What [json.loads] can return: [None], [bool], [int], [float], [str],
    [list], and [dict] with string keys.  A dict keeps its keys in
    insertion order, without duplicates. *)
Inductive value : Type :=
| VNone
| VBool (b : bool)
| VInt (n : Z)
| VFloat (f : spec_float)
| VStr (s : string)
| VList (l : list value)
| VDict (d : list (string * value)).

(** The exceptions the handlers can meet. *)
Inductive exn : Type :=
| AttributeError
| TypeError
| IndexError
| KeyError.

Inductive result (A : Type) : Type :=
| Ok (a : A)
| Raise (e : exn).
Arguments Ok {A} a.
Arguments Raise {A} e.

Definition bind {A B : Type} (m : result A) (k : A -> result B) : result B :=
  match m with
  | Ok a => k a
  | Raise e => Raise e
  end.

Notation "x <- m ;; k" := (bind m (fun x => k))
  (at level 61, m at next level, right associativity).

Fixpoint mapM {A B : Type} (f : A -> result B) (l : list A) : result (list B) :=
  match l with
  | [] => Ok []
  | a :: l' => b <- f a ;; bs <- mapM f l' ;; Ok (b :: bs)
  end.

(** Truth value of an object, as [or], [not] and [if] test it. *)
Definition truthy (v : value) : bool :=
  match v with
  | VNone => false
  | VBool b => b
  | VInt n => negb (n =? 0)
  | VFloat (S754_zero _) => false
  | VFloat _ => true
  | VStr s => negb (String.eqb s "")
  | VList l => match l with [] => false | _ => true end
  | VDict d => match d with [] => false | _ => true end
  end.

(** [a or b] *)
Definition py_or (a b : value) : value := if truthy a then a else b.

Module Dict.

Definition t : Type := list (string * value).

(** [d.get(k)], with [None] for Python's [None] default left to the
    caller. *)
Fixpoint get (k : string) (d : t) : option value :=
  match d with
  | [] => None
  | (k', v) :: d' => if String.eqb k k' then Some v else get k d'
  end.

(** [d.get(k, dflt)] *)
Definition get_default (k : string) (dflt : value) (d : t) : value :=
  match get k d with Some v => v | None => dflt end.

(** [d[k] = v]: an existing key keeps its place, a new one goes last. *)
Fixpoint set (k : string) (v : value) (d : t) : t :=
  match d with
  | [] => [(k, v)]
  | (k', v') :: d' =>
      if String.eqb k k' then (k', v) :: d' else (k', v') :: set k v d'
  end.

End Dict.

(** [l[i]] on a list: a negative index counts from the end. *)
Definition list_index {A : Type} (l : list A) (i : Z) : result A :=
  let len := Z.of_nat (List.length l) in
  let j := if i <? 0 then len + i else i in
  if (j <? 0) || (len <=? j) then Raise IndexError
  else match nth_error l (Z.to_nat j) with
       | Some a => Ok a
       | None => Raise IndexError
       end.

(* ================================================================== *)
(** * Helpers of the blueprint *)
(* ================================================================== *)

(** [clamp(n, lo, hi)] *)
Definition clamp (n lo hi : Z) : Z := Z.max lo (Z.min n hi).

Module Fence.

Definition ticks : string := "```".

(** The lazy group [(.*?)] followed by the closing fence: the shortest
    text before an occurrence of the three backticks. *)
Fixpoint lazy_group (s : string) : option string :=
  if String.prefix ticks s then Some EmptyString
  else match s with
       | EmptyString => None
       | String c s' => option_map (String c) (lazy_group s')
       end.

(** A match of the whole pattern that starts at the head of [s]: the
    opening fence, then the optional tag (tried first with the tag
    consumed, compared without regard to case, then without), then the
    lazy group up to the closing fence.  The result is group 1. *)
Definition match_here (s : string) : option string :=
  if String.prefix ticks s then
    let rest := PyStr.drop 3 s in
    let tagged :=
      if String.prefix "JSON" (PyStr.upper rest)
      then lazy_group (PyStr.drop 4 rest) else None in
    match tagged with
    | Some g => Some g
    | None => lazy_group rest
    end
  else None.

(** [re.search(pattern, text, re.S | re.I)]: the match at the leftmost
    position that has one. *)
Fixpoint search (s : string) : option string :=
  match match_here s with
  | Some g => Some g
  | None => match s with
            | EmptyString => None
            | String _ s' => search s'
            end
  end.

End Fence.

(** [extract_json_block(text)] *)
Definition extract_json_block (text : string) : string :=
  let text := match Fence.search text with
              | Some g => PyStr.strip g
              | None => text
              end in
  let start := PyStr.find text "[" in
  let end_ := PyStr.rfind text "]" in
  if negb (start =? -1) && negb (end_ =? -1) && (start <? end_)
  then PyStr.slice text start (end_ + 1)
  else text.

Example extract_fenced :
  extract_json_block "Here you go:
```json
[1, 2]
```
Enjoy!" = "[1, 2]".
Proof. reflexivity. Qed.

Example extract_bare : extract_json_block "Sure: [1] ok" = "[1]".
Proof. reflexivity. Qed.

Example extract_second_fence_ignored :
  extract_json_block "```JSON[1]``` x ```[2]```" = "[1]".
Proof. reflexivity. Qed.

Example extract_unclosed_fence : extract_json_block "```json" = "```json".
Proof. reflexivity. Qed.

Example extract_none : extract_json_block "no array here" = "no array here".
Proof. reflexivity. Qed.

(* ================================================================== *)
(** * Responses, session and the table of results *)
(* ================================================================== *)

(** The view functions [url_for] is called with. *)
Inductive endpoint : Type :=
| docs_upload
| quiz_start_quiz
| quiz_show_question
| quiz_show_result.

(** What a handler returns: a redirect, or a rendered template with the
    values passed to it. *)
Inductive response : Type :=
| Redirect (target : endpoint)
| RenderStart
| RenderQuestion (qnum total : Z) (question : value)
| RenderResult (score total : Z) (feedback : string).

(** The keys of the Flask session this blueprint reads or writes; [None]
    is an absent key.  [flashes] holds the (category, message) pairs that
    [flash] queues. *)
Record session : Type := mkSession {
  quiz_data : option (list value);
  quiz_index : option Z;
  quiz_score : option Z;
  last_explanation : option value;
  flashes : list (string * string)
}.

Definition flash (message category : string) (s : session) : session :=
  mkSession (quiz_data s) (quiz_index s) (quiz_score s) (last_explanation s)
            (flashes s ++ [(category, message)]).

Module Models.

(** A row of the table [quiz_result]. *)
Record QuizResult : Type := mkQuizResult {
  id : Z;
  user_id : Z;
  score : Z;
  total : Z;
  timestamp : Z
}.

(** The latest [Document] of a user, as far as the quiz reads it. *)
Record Document : Type := mkDocument {
  extracted_text : option string
}.

(** The table [quiz_result], oldest row first. *)
Definition table : Type := list QuizResult.

Definition next_id (rows : table) : Z :=
  1 + fold_right (fun r m => Z.max (id r) m) 0 rows.

(** [db.session.add(QuizResult(user_id=.., score=.., total=..))] followed
    by [db.session.commit()]: the row gets the next primary key and the
    server's current time. *)
Definition add (now uid sc tot : Z) (rows : table) : table :=
  (rows ++ [mkQuizResult (next_id rows) uid sc tot now])%list.

End Models.

(** The form of a request: [request.form.get(name)]. *)
Definition form : Type := string -> option string.

(* ================================================================== *)
(** * Normalisation of the generated questions *)
(* ================================================================== *)

Definition labels : list string := ["A)"; "B)"; "C)"; "D)"].

Definition letters : list string := ["A"; "B"; "C"; "D"].

Definition is_letter (s : string) : bool :=
  existsb (String.eqb s) letters.

Definition no_explanation : string := "No explanation provided.".

(** [x.strip()] for an object [x]: only a [str] has the method. *)
Definition strip_method (v : value) : result string :=
  match v with
  | VStr s => Ok (PyStr.strip s)
  | _ => Raise AttributeError
  end.

(** The loop [for i, o in enumerate(q["options"])] from index [i] on:
    option [o] at position [i] is replaced by [f"{labels[i]} {o}"] unless
    [o.strip().upper()] starts with [labels[i]]. *)
Fixpoint label_options (i : nat) (opts : list string) : result (list string) :=
  match opts with
  | [] => Ok []
  | o :: rest =>
      match nth_error labels i with
      | None => Raise IndexError
      | Some l =>
          let o' := if PyStr.startswith (PyStr.upper (PyStr.strip o)) l
                    then o else l ++ " " ++ o in
          os <- label_options (S i) rest ;;
          Ok (o' :: os)
      end
  end.

Section Normalise.

(** [str(o)] of an object that is not a [str], [None], [bool] or [int]. *)
Variable repr : value -> string.

(** [str(o)] *)
Definition py_str (o : value) : string :=
  match o with
  | VStr s => s
  | VNone => "None"
  | VBool true => "True"
  | VBool false => "False"
  | VInt n => PyStr.of_int n
  | _ => repr o
  end.

(** [opts[:4]], ready to be iterated: a list gives its first four
    elements, a string its first four characters, and nothing else can be
    sliced. *)
Definition first_four (opts : value) : result (list value) :=
  match opts with
  | VList l => Ok (firstn 4 l)
  | VStr s => Ok (map VStr (PyStr.chars (PyStr.slice s 0 4)))
  | _ => Raise TypeError
  end.

(** Lines 102-109: the options of an item, trimmed and labelled. *)
Definition normalize_options (opts : value) : result (list string) :=
  l <- first_four opts ;;
  label_options 0 (map (fun o => PyStr.strip (py_str o)) l).

(** The body of the loop [for q in data] (lines 102-118); the item is
    updated in place. *)
Definition normalize_question (q : value) : result value :=
  match q with
  | VDict d =>
      options <- normalize_options (Dict.get_default "options" (VList []) d) ;;
      let d := Dict.set "options" (VList (map VStr options)) d in
      corr <- strip_method (py_or (Dict.get_default "correct" VNone d) (VStr "")) ;;
      let d := if is_letter (PyStr.upper corr) then d
               else Dict.set "correct" (VStr "A") d in
      let d := if truthy (Dict.get_default "explanation" VNone d) then d
               else Dict.set "explanation" (VStr no_explanation) d in
      Ok (VDict d)
  | _ => Raise AttributeError
  end.

(** The whole loop (lines 101-118). *)
Definition normalize_all (data : list value) : result (list value) :=
  mapM normalize_question data.

End Normalise.

(* ================================================================== *)
(** * The request handlers *)
(* ================================================================== *)

(** The text of a prompt is written below with an apostrophe wherever the
    source has a double quote; [dquote] puts the double quotes back. *)
Definition dquote (s : string) : string :=
  PyStr.map_chars (fun c => if Ascii.eqb c "'" then ascii_of_nat 34 else c) s.

Definition or_default (v : option string) (dflt : string) : string :=
  match v with
  | Some EmptyString | None => dflt
  | Some s => s
  end.

(** Lines 48-52: the number of questions asked for. *)
Definition effective_count (f : form) : Z :=
  let num :=
    match PyStr.int_of_str (match f "num_questions" with
                            | Some v => v
                            | None => "5"
                            end) with
    | Some n => n
    | None => 5
    end in
  clamp num 1 50.

(** Lines 54-56. *)
Definition effective_difficulty (f : form) : string :=
  let difficulty := PyStr.lower (or_default (f "difficulty") "medium") in
  if existsb (String.eqb difficulty) ["easy"; "medium"; "hard"]
  then difficulty else "medium".

(** Lines 61-85: the f-string. *)
Definition build_prompt (num : Z) (difficulty text : string) : string :=
  "
You are an expert MCQ quiz generator.

Generate " ++ PyStr.of_int num ++ " multiple-choice questions strictly based on the DOCUMENT TEXT below.
Difficulty: " ++ difficulty ++ dquote "

Rules:
- Each question must have exactly 4 options labeled 'A)', 'B)', 'C)', 'D)'.
- Provide which option letter is correct via the 'correct' field (e.g., 'B').
- Provide a one-sentence explanation for the correct answer.
- Output ONLY a valid JSON array (no extra text, no markdown fence).

JSON schema example:
[
  {
    'question': '....',
    'options': ['A) ...', 'B) ...', 'C) ...', 'D) ...'],
    'correct': 'B',
    'explanation': 'one sentence explanation'
  }
]

DOCUMENT TEXT:
" ++ text ++ "
".

Inductive http_method : Type := GET | POST.

Definition len (data : list value) : Z := Z.of_nat (List.length data).

Definition get_or {A : Type} (v : option A) (dflt : A) : A :=
  match v with Some a => a | None => dflt end.

(** [x.get(k, ...)] for an object [x]: only a [dict] has the method. *)
Definition get_method (x : value) (k : string) (dflt : value) : result value :=
  match x with
  | VDict d => Ok (Dict.get_default k dflt d)
  | _ => Raise AttributeError
  end.

Definition parse_failure_message : string :=
  "Quiz generation failed to parse JSON. Please try again.".

Section Handlers.

(** [json.loads]; [None] when it raises. *)
Variable json_loads : string -> option value.

(** [str(o)] of an object that is not a [str], [None], [bool] or [int]. *)
Variable repr : value -> string.

(** The Generation Client: the text of the response to a prompt. *)
Variable generate_content : string -> string.

(** Lines 92-125 of [start_quiz], from the raw text on. *)
Definition start_quiz_parse (s : session) (raw : string)
  : result (session * response) :=
  let json_str := extract_json_block raw in
  match json_loads json_str with
  | Some (VList (q :: qs)) =>
      data <- normalize_all repr (q :: qs) ;;
      Ok (mkSession (Some data) (Some 0) (Some 0)
                    (last_explanation s) (flashes s),
          Redirect quiz_show_question)
  | _ =>
      Ok (flash parse_failure_message "danger" s, Redirect quiz_start_quiz)
  end.

(** [start_quiz] *)
Definition start_quiz (method : http_method) (latest : option Models.Document)
           (f : form) (s : session) : result (session * response) :=
  let text :=
    match latest with
    | Some doc => or_default (Models.extracted_text doc) ""
    | None => ""
    end in
  if String.eqb (PyStr.strip text) "" then
    Ok (flash "Please upload a document first." "warning" s,
        Redirect docs_upload)
  else
    match method with
    | POST =>
        let num := effective_count f in
        let difficulty := effective_difficulty f in
        let prompt := build_prompt num difficulty text in
        let raw := PyStr.strip (generate_content prompt) in
        start_quiz_parse s raw
    | GET => Ok (s, RenderStart)
    end.

(** [show_question] *)
Definition show_question (s : session) : result (session * response) :=
  let idx := get_or (quiz_index s) 0 in
  match quiz_data s with
  | None | Some [] =>
      Ok (flash "Please generate a quiz first." "warning" s,
          Redirect quiz_start_quiz)
  | Some data =>
      if len data <=? idx then Ok (s, Redirect quiz_show_result)
      else
        q <- list_index data idx ;;
        Ok (s, RenderQuestion (idx + 1) (len data) q)
  end.

(** [submit_answer] *)
Definition submit_answer (f : form) (s : session)
  : result (session * response) :=
  let data := get_or (quiz_data s) [] in
  let idx := get_or (quiz_index s) 0 in
  let score := get_or (quiz_score s) 0 in
  if len data <=? idx then Ok (s, Redirect quiz_show_result)
  else
    let selected := PyStr.upper (PyStr.strip (or_default (f "answer") "")) in
    q <- list_index data idx ;;
    c <- get_method q "correct" VNone ;;
    c <- strip_method (py_or c (VStr "")) ;;
    let correct := PyStr.upper c in
    let score := if String.eqb selected correct then score + 1 else score in
    q <- list_index data idx ;;
    e <- get_method q "explanation" (VStr "") ;;
    let idx := idx + 1 in
    let s := mkSession (quiz_data s) (Some idx) (Some score) (Some e)
                       (flashes s) in
    if len data <=? idx then Ok (s, Redirect quiz_show_result)
    else Ok (s, Redirect quiz_show_question).

End Handlers.

(** ** The result page *)

Module Float.

Definition prec : Z := 53.
Definition emax : Z := 1024.

(** [float(n)] for an [int]; exact below 2^53 in absolute value, the
    range in which [int / int] divides the converted operands. *)
Definition of_int (n : Z) : spec_float :=
  binary_normalize prec emax n 0 false.

Definition div : spec_float -> spec_float -> spec_float := SFdiv prec emax.
Definition mul : spec_float -> spec_float -> spec_float := SFmul prec emax.
Definition ltb : spec_float -> spec_float -> bool := SFltb.

End Float.

(** [(score / total * 100) if total else 0] *)
Definition percent (score total : Z) : spec_float :=
  if total =? 0 then Float.of_int 0
  else Float.mul (Float.div (Float.of_int score) (Float.of_int total))
                 (Float.of_int 100).

(** Lines 198-203. *)
Definition feedback_of (percent : spec_float) : string :=
  if Float.ltb percent (Float.of_int 40) then "Needs Practice"
  else if Float.ltb percent (Float.of_int 70) then "Good, keep improving"
  else "Excellent!".

(** [show_result], for the user [current_user_id] at server time [now]. *)
Definition show_result (now current_user_id : Z) (s : session)
           (rows : Models.table) : Models.table * response :=
  let data := get_or (quiz_data s) [] in
  let total := len data in
  let score := get_or (quiz_score s) 0 in
  let rows := if 0 <? total then Models.add now current_user_id score total rows
              else rows in
  (rows, RenderResult score total (feedback_of (percent score total))).

(* ================================================================== *)
(** * A reference JSON decoder for the worked examples *)
(* ================================================================== *)

(** The theorems below hold for every [json_loads].  The worked examples
    need one to run: [JsonRef.loads] decodes the documents whose numbers are
    integers and whose strings have no [\u] escape, the way [json.loads]
    does; a document outside that fragment is not used in any example. *)
Module JsonRef.

Definition obind {A B : Type} (m : option A) (k : A -> option B) : option B :=
  match m with Some a => k a | None => None end.

Definition is_ws (c : ascii) : bool :=
  let n := nat_of_ascii c in
  ((n =? 32) || (n =? 9) || (n =? 10) || (n =? 13))%nat.

Fixpoint skip_ws (s : string) : string :=
  match s with
  | String c s' => if is_ws c then skip_ws s' else s
  | EmptyString => EmptyString
  end.

Definition unescape (c : ascii) : option ascii :=
  let n := nat_of_ascii c in
  if (n =? 34)%nat || (n =? 92)%nat || (n =? 47)%nat then Some c
  else if Ascii.eqb c "b" then Some (ascii_of_nat 8)
  else if Ascii.eqb c "f" then Some (ascii_of_nat 12)
  else if Ascii.eqb c "n" then Some (ascii_of_nat 10)
  else if Ascii.eqb c "r" then Some (ascii_of_nat 13)
  else if Ascii.eqb c "t" then Some (ascii_of_nat 9)
  else None.

(** A string, from just after its opening quote: its text and what
    follows the closing quote. *)
Fixpoint str_body (s : string) : option (string * string) :=
  match s with
  | EmptyString => None
  | String c s' =>
      let n := nat_of_ascii c in
      if (n =? 34)%nat then Some (EmptyString, s')
      else if (n =? 92)%nat then
        match s' with
        | String e s'' =>
            obind (unescape e) (fun ch =>
            obind (str_body s'') (fun '(t, r) => Some (String ch t, r)))
        | EmptyString => None
        end
      else if (n <? 32)%nat then None
      else obind (str_body s') (fun '(t, r) => Some (String c t, r))
  end.

Fixpoint digits (acc : Z) (s : string) : Z * string :=
  match s with
  | String c s' =>
      if PyStr.is_digit c then digits (10 * acc + PyStr.digit_value c) s'
      else (acc, s)
  | EmptyString => (acc, s)
  end.

(** An integer literal: [0], or a non-zero digit and more digits; a
    fraction or an exponent after it is outside the fragment. *)
Definition natural (s : string) : option (Z * string) :=
  match s with
  | String c s' =>
      if PyStr.is_digit c then
        let '(n, r) := if Ascii.eqb c "0" then (0, s')
                       else digits (PyStr.digit_value c) s' in
        match r with
        | String d _ =>
            if Ascii.eqb d "." || Ascii.eqb d "e" || Ascii.eqb d "E"
            then None else Some (n, r)
        | EmptyString => Some (n, r)
        end
      else None
  | EmptyString => None
  end.

Definition literal (word : string) (v : value) (s : string)
  : option (value * string) :=
  if String.prefix word s then Some (v, PyStr.drop (String.length word) s)
  else None.

Fixpoint parse (fuel : nat) (s : string) : option (value * string) :=
  match fuel with
  | O => None
  | S fuel =>
      match s with
      | EmptyString => None
      | String c s' =>
          let n := nat_of_ascii c in
          if (n =? 34)%nat then
            obind (str_body s') (fun '(t, r) => Some (VStr t, r))
          else if Ascii.eqb c "[" then
            match skip_ws s' with
            | String "]" r => Some (VList [], r)
            | s1 => obind (items fuel s1) (fun '(l, r) => Some (VList l, r))
            end
          else if Ascii.eqb c "{" then
            match skip_ws s' with
            | String "}" r => Some (VDict [], r)
            | s1 =>
                obind (members fuel s1) (fun '(kvs, r) =>
                Some (VDict (fold_left (fun d kv => Dict.set (fst kv) (snd kv) d)
                                       kvs []), r))
            end
          else if Ascii.eqb c "n" then literal "null" VNone s
          else if Ascii.eqb c "t" then literal "true" (VBool true) s
          else if Ascii.eqb c "f" then literal "false" (VBool false) s
          else if Ascii.eqb c "-" then
            obind (natural s') (fun '(k, r) => Some (VInt (- k), r))
          else obind (natural s) (fun '(k, r) => Some (VInt k, r))
      end
  end
with items (fuel : nat) (s : string) : option (list value * string) :=
  match fuel with
  | O => None
  | S fuel =>
      obind (parse fuel s) (fun '(v, r) =>
      match skip_ws r with
      | String "," r' =>
          obind (items fuel (skip_ws r')) (fun '(vs, r'') => Some (v :: vs, r''))
      | String "]" r' => Some ([v], r')
      | _ => None
      end)
  end
with members (fuel : nat) (s : string)
  : option (list (string * value) * string) :=
  match fuel with
  | O => None
  | S fuel =>
      match s with
      | String c s' =>
          if (nat_of_ascii c =? 34)%nat then
            obind (str_body s') (fun '(k, r) =>
            match skip_ws r with
            | String ":" r1 =>
                obind (parse fuel (skip_ws r1)) (fun '(v, r2) =>
                match skip_ws r2 with
                | String "," r3 =>
                    obind (members fuel (skip_ws r3)) (fun '(kvs, r4) =>
                    Some ((k, v) :: kvs, r4))
                | String "}" r3 => Some ([(k, v)], r3)
                | _ => None
                end)
            | _ => None
            end)
          else None
      | EmptyString => None
      end
  end.

Definition loads (s : string) : option value :=
  match parse (2 * String.length s + 2) (skip_ws s) with
  | Some (v, r) =>
      match skip_ws r with
      | EmptyString => Some v
      | _ => None
      end
  | None => None
  end.

End JsonRef.

Example loads_examples :
  JsonRef.loads (dquote " [ {'a': [1, -2, true, null], 'b': 'x\ny'} , []]
") = Some (VList [VDict [("a", VList [VInt 1; VInt (-2); VBool true; VNone]);
                         ("b", VStr "x
y")]; VList []]) /\
  JsonRef.loads "[1,]" = None /\ JsonRef.loads "fences." = None /\
  JsonRef.loads "" = None /\ JsonRef.loads "[1] x" = None /\
  JsonRef.loads "01" = None /\
  JsonRef.loads (dquote "{'k': 1, 'j': 2, 'k': 3}")
    = Some (VDict [("k", VInt 3); ("j", VInt 2)]).
Proof. repeat split; vm_compute; reflexivity. Qed.

(* ================================================================== *)
(** * Runs of the state machine *)
(* ================================================================== *)

Notation "' p <- m ;; k" := (bind m (fun p => k))
  (at level 61, p pattern, m at next level, right associativity).

(** A form with the given fields. *)
Definition form_of (fields : list (string * string)) : form :=
  fun name =>
    match find (fun kv => String.eqb name (fst kv)) fields with
    | Some kv => Some (snd kv)
    | None => None
    end.

(** The answer forms of [answers] posted to [/quiz/answer] one after the
    other; the responses are collected in order. *)
Fixpoint submit_all (answers : list form) (s : session)
  : result (session * list response) :=
  match answers with
  | [] => Ok (s, [])
  | f :: rest =>
      '(s1, r) <- submit_answer f s ;;
      '(s2, rs) <- submit_all rest s1 ;;
      Ok (s2, r :: rs)
  end.

(** The result page requested once at each of the server times [times]. *)
Fixpoint show_result_all (times : list Z) (current_user_id : Z) (s : session)
         (rows : Models.table) : Models.table * list response :=
  match times with
  | [] => (rows, [])
  | now :: rest =>
      let '(rows1, r) := show_result now current_user_id s rows in
      let '(rows2, rs) := show_result_all rest current_user_id s rows1 in
      (rows2, r :: rs)
  end.

(** The [correct] field a question record holds. *)
Definition stored_correct (q : value) : string :=
  match q with
  | VDict d => match Dict.get "correct" d with
               | Some (VStr c) => c
               | _ => EmptyString
               end
  | _ => EmptyString
  end.

(** The submitted answer, trimmed and uppercased, equals the question's
    correct letter, trimmed and uppercased. *)
Definition answer_matches (q : value) (f : form) : bool :=
  String.eqb (PyStr.upper (PyStr.strip (or_default (f "answer") "")))
             (PyStr.upper (PyStr.strip (stored_correct q))).

(** How many of the answers match their question. *)
Fixpoint count_matches (qs : list value) (answers : list form) : Z :=
  match qs, answers with
  | q :: qs', f :: answers' =>
      (if answer_matches q f then 1 else 0) + count_matches qs' answers'
  | _, _ => 0
  end.

(** The session is in the state Completed. *)
Definition completed (s : session) : Prop :=
  get_or (quiz_index s) 0 = len (get_or (quiz_data s) []).

(** The rows a table holds for one quiz outcome. *)
Definition records (uid sc tot : Z) (r : Models.QuizResult) : Prop :=
  Models.user_id r = uid /\ Models.score r = sc /\ Models.total r = tot.

(* ================================================================== *)
(** * Properties: the question count *)
(* ================================================================== *)

Lemma clamp_bounds (n lo hi : Z) : lo <= hi -> lo <= clamp n lo hi <= hi.
Proof. unfold clamp. lia. Qed.

Lemma clamp_cases (n : Z) :
  clamp n 1 50 = if n <? 1 then 1 else if 50 <? n then 50 else n.
Proof.
  unfold clamp.
  destruct (Z.ltb_spec n 1); [lia|].
  destruct (Z.ltb_spec 50 n); lia.
Qed.

(** C7, as the code has it: the effective question count is 5 when the
    field is absent or fails integer parsing; otherwise it is the parsed
    integer cut to the range [1,50] (1 below the range, 50 above it, the
    integer itself inside); so it always lies in [1,50]. *)
Theorem effective_count_spec (f : form) :
  effective_count f =
    match f "num_questions" with
    | None => 5
    | Some v =>
        match PyStr.int_of_str v with
        | None => 5
        | Some n => if n <? 1 then 1 else if 50 <? n then 50 else n
        end
    end
  /\ 1 <= effective_count f <= 50.
Proof.
  split.
  - unfold effective_count.
    destruct (f "num_questions") as [v|].
    + destruct (PyStr.int_of_str v) as [n|]; [apply clamp_cases | reflexivity].
    + reflexivity.
  - unfold effective_count. apply clamp_bounds. lia.
Qed.

(** C7 as stated fails: the form value 100 parses, is out of range, and
    gives 50, not 5. *)
Lemma effective_count_out_of_range_not_default :
  PyStr.int_of_str "100" = Some 100 /\ ~ (1 <= 100 <= 50) /\
  effective_count (form_of [("num_questions", "100")]) = 50 /\
  effective_count (form_of [("num_questions", "100")]) <> 5.
Proof.
  repeat split; try reflexivity; [lia | discriminate].
Qed.

(** A value with a separator in front of the digits, or with more digits
    than [int()] converts, fails integer parsing and gives 5. *)
Example effective_count_unparsable :
  effective_count (form_of [("num_questions", String (ascii_of_nat 28) "7")]) = 5
  /\ effective_count (form_of [("num_questions", PyStr.repeat_char "9" 4301)]) = 5
  /\ effective_count (form_of [("num_questions", "ten")]) = 5
  /\ effective_count (form_of []) = 5
  /\ effective_count (form_of [("num_questions", " 7 ")]) = 7
  /\ effective_count (form_of [("num_questions", "-3")]) = 1.
Proof. repeat split; vm_compute; reflexivity. Qed.

(* ================================================================== *)
(** * Properties: the result page *)
(* ================================================================== *)

(** C8: the result view renders the session's score and total with the
    feedback of percent = score / total * 100 (0 when total is 0), which is
    Needs Practice below 40, Good, keep improving from 40 to below 70 and
    Excellent! from 70 on; total 0 gives percent 0 and Needs Practice, 8 of
    10 gives percent 80 and Excellent!, 5 of 10 gives Good, keep
    improving. *)
Theorem show_result_feedback :
  (forall now uid s rows,
      let sc := get_or (quiz_score s) 0 in
      let tot := len (get_or (quiz_data s) []) in
      snd (show_result now uid s rows)
      = RenderResult sc tot (feedback_of (percent sc tot)))
  /\ (forall sc tot,
         percent sc tot =
           if tot =? 0 then Float.of_int 0
           else Float.mul (Float.div (Float.of_int sc) (Float.of_int tot))
                          (Float.of_int 100))
  /\ (forall p,
         feedback_of p =
           if Float.ltb p (Float.of_int 40) then "Needs Practice"
           else if Float.ltb p (Float.of_int 70) then "Good, keep improving"
           else "Excellent!")
  /\ (forall sc, percent sc 0 = Float.of_int 0
                 /\ feedback_of (percent sc 0) = "Needs Practice")
  /\ percent 8 10 = Float.of_int 80
  /\ feedback_of (percent 8 10) = "Excellent!"
  /\ feedback_of (percent 5 10) = "Good, keep improving".
Proof.
  repeat split; try reflexivity.
Qed.

(** The tier of a score as exact arithmetic gives it. *)
Definition tier_exact (sc tot : Z) : string :=
  if 100 * sc <? 40 * tot then "Needs Practice"
  else if 100 * sc <? 70 * tot then "Good, keep improving"
  else "Excellent!".

Definition tiers_agree (bound : nat) : bool :=
  forallb (fun tot =>
    forallb (fun sc =>
      String.eqb (feedback_of (percent (Z.of_nat sc) (Z.of_nat tot)))
                 (tier_exact (Z.of_nat sc) (Z.of_nat tot)))
      (seq 0 (S tot)))
    (seq 1 bound).

Lemma tiers_agree_sound (bound : nat) (sc tot : Z) :
  tiers_agree bound = true ->
  0 <= sc <= tot -> 0 < tot <= Z.of_nat bound ->
  feedback_of (percent sc tot) = tier_exact sc tot.
Proof.
  intros H Hsc Htot.
  unfold tiers_agree in H. rewrite forallb_forall in H.
  assert (In (Z.to_nat tot) (seq 1 bound)) as Htot' by (apply in_seq; lia).
  specialize (H (Z.to_nat tot) Htot').
  rewrite forallb_forall in H.
  assert (In (Z.to_nat sc) (seq 0 (S (Z.to_nat tot)))) as Hsc'
      by (apply in_seq; lia).
  specialize (H (Z.to_nat sc) Hsc').
  rewrite !Z2Nat.id in H by lia.
  now apply String.eqb_eq.
Qed.

Lemma tiers_agree_50 : tiers_agree 50 = true.
Proof. vm_compute. reflexivity. Qed.

(** On quizzes of up to fifty questions, the most [start_quiz] asks for,
    the rounding of the division and of the product never moves a score
    across a threshold: the feedback is the one exact arithmetic gives. *)
Lemma feedback_exact (sc tot : Z) :
  0 <= sc <= tot -> 0 < tot <= 50 ->
  feedback_of (percent sc tot) = tier_exact sc tot.
Proof.
  intros Hsc Htot.
  apply (tiers_agree_sound 50 sc tot tiers_agree_50 Hsc).
  change (Z.of_nat 50) with 50. exact Htot.
Qed.

Lemma show_result_rows (now uid : Z) (s : session) (rows : Models.table) :
  fst (show_result now uid s rows) =
    if 0 <? len (get_or (quiz_data s) [])
    then Models.add now uid (get_or (quiz_score s) 0)
                    (len (get_or (quiz_data s) [])) rows
    else rows.
Proof. reflexivity. Qed.

(** C10: while the quiz is still in progress (a non-empty question list and
    an index before its end), a GET of the result view inserts a row with
    the current partial score over the full total: nothing checks that the
    quiz is complete. *)
Theorem show_result_in_progress_persists
        (now uid : Z) (s : session) (rows : Models.table) (data : list value) :
  quiz_data s = Some data ->
  data <> [] ->
  0 <= get_or (quiz_index s) 0 < len data ->
  fst (show_result now uid s rows) =
    (rows ++ [Models.mkQuizResult (Models.next_id rows) uid
                                  (get_or (quiz_score s) 0) (len data) now])%list.
Proof.
  intros Hdata Hne _.
  rewrite show_result_rows, Hdata. cbn [get_or].
  destruct data as [|q qs]; [congruence|].
  reflexivity.
Qed.

Lemma show_result_all_rows (times : list Z) (uid : Z) (s : session) :
  forall rows,
    0 < len (get_or (quiz_data s) []) ->
    exists new,
      fst (show_result_all times uid s rows) = (rows ++ new)%list /\
      map Models.timestamp new = times /\
      Forall (records uid (get_or (quiz_score s) 0)
                      (len (get_or (quiz_data s) []))) new.
Proof.
  induction times as [|now rest IH]; intros rows Hpos.
  - exists []. cbn. rewrite app_nil_r. auto.
  - cbn [show_result_all].
    destruct (show_result now uid s rows) as [rows1 r] eqn:E1.
    destruct (show_result_all rest uid s rows1) as [rows2 rs] eqn:E2.
    pose proof (show_result_rows now uid s rows) as H1.
    rewrite E1 in H1. cbn [fst] in H1.
    apply Z.ltb_lt in Hpos. rewrite Hpos in H1. apply Z.ltb_lt in Hpos.
    destruct (IH rows1 Hpos) as (new & Hrows & Htimes & Hall).
    rewrite E2 in Hrows. cbn [fst] in *. subst rows1 rows2.
    unfold Models.add.
    eexists (_ :: new). rewrite <- app_assoc. split; [reflexivity|].
    split; [cbn; now rewrite Htimes|].
    constructor; [repeat split | exact Hall].
Qed.

(** C2, as the code has it: for a completed quiz with total > 0, every
    rendering of the result page creates one more QuizResult row (user_id,
    score, total, server-assigned timestamp), so rendering it n times
    creates n rows; the rows already in the table are never updated or
    deleted. *)
Theorem show_result_one_row_per_render
        (times : list Z) (uid : Z) (s : session) (rows : Models.table) :
  completed s ->
  0 < len (get_or (quiz_data s) []) ->
  exists new,
    fst (show_result_all times uid s rows) = (rows ++ new)%list /\
    List.length new = List.length times /\
    map Models.timestamp new = times /\
    Forall (records uid (get_or (quiz_score s) 0)
                    (len (get_or (quiz_data s) []))) new.
Proof.
  intros _ Hpos.
  destruct (show_result_all_rows times uid s rows Hpos) as (new & H1 & H2 & H3).
  exists new. repeat split; auto.
  rewrite <- H2. now rewrite length_map.
Qed.

(* ================================================================== *)
(** * Properties: answering a completed quiz *)
(* ================================================================== *)

(** C6: in a session whose index equals the number of questions, posting
    an answer changes neither score nor index (nor anything else in the
    session) and only redirects to the result view. *)
Theorem submit_answer_completed_noop (f : form) (s : session) :
  completed s ->
  submit_answer f s = Ok (s, Redirect quiz_show_result).
Proof.
  unfold completed, submit_answer. intros ->.
  now rewrite Z.leb_refl.
Qed.

(* ================================================================== *)
(** * Properties: failure of the parse step *)
(* ================================================================== *)

Section ParseFailure.

Variable json_loads : string -> option value.
Variable repr : value -> string.

(** C9: for every raw text, the parse step ends in the danger-level
    message and the redirect to the start form, exactly when decoding the
    candidate raises, or gives something that is not a list, or gives the
    empty list; the Generation Client is not consulted again and the quiz
    state of the session stays as it was. *)
Theorem start_quiz_parse_failure (s : session) (raw : string) :
  let failed := flash parse_failure_message "danger" s in
  (start_quiz_parse json_loads repr s raw = Ok (failed, Redirect quiz_start_quiz)
   <-> (json_loads (extract_json_block raw) = None
        \/ (exists v, json_loads (extract_json_block raw) = Some v
                      /\ forall l, v <> VList l)
        \/ json_loads (extract_json_block raw) = Some (VList [])))
  /\ quiz_data failed = quiz_data s
  /\ quiz_index failed = quiz_index s
  /\ quiz_score failed = quiz_score s.
Proof.
  cbv zeta. split; [|repeat split].
  unfold start_quiz_parse.
  destruct (json_loads (extract_json_block raw)) as [v|] eqn:E.
  - destruct v as [| b | n | x | t | l | d];
      try (split; [intros _; right; left; eexists; split;
                   [reflexivity | intros l'; discriminate]
                  | reflexivity]).
    destruct l as [|q qs].
    + split; [auto | reflexivity].
    + split.
      * destruct (normalize_all repr (q :: qs)); cbn; intros H; discriminate H.
      * intros [H | [(v & Hv & Hl) | H]]; try discriminate.
        injection Hv as <-. now destruct (Hl (q :: qs)).
  - split; [auto | reflexivity].
Qed.

(** A POST for a user with a document runs the parse step on the trimmed
    text of the one response the Generation Client gives. *)
Lemma start_quiz_post (generate_content : string -> string)
      (doc : Models.Document) (text : string) (f : form) (s : session) :
  Models.extracted_text doc = Some text ->
  PyStr.strip text <> "" ->
  start_quiz json_loads repr generate_content POST (Some doc) f s =
    start_quiz_parse json_loads repr s
      (PyStr.strip (generate_content
         (build_prompt (effective_count f) (effective_difficulty f) text))).
Proof.
  intros Htext Hne. unfold start_quiz. rewrite Htext.
  assert (or_default (Some text) "" = text) as ->
      by (destruct text; reflexivity).
  apply String.eqb_neq in Hne. now rewrite Hne.
Qed.

End ParseFailure.

(* ================================================================== *)
(** * Facts about the string and dict operations *)
(* ================================================================== *)

Module DictFacts.

Lemma get_set_same (k : string) (v : value) (d : Dict.t) :
  Dict.get k (Dict.set k v d) = Some v.
Proof.
  induction d as [|[k' v'] d IH]; cbn.
  - now rewrite String.eqb_refl.
  - destruct (String.eqb k k') eqn:E; cbn; rewrite E; auto.
Qed.

Lemma get_set_other (k k' : string) (v : value) (d : Dict.t) :
  k <> k' -> Dict.get k (Dict.set k' v d) = Dict.get k d.
Proof.
  intros Hne. induction d as [|[k0 v0] d IH]; cbn.
  - apply String.eqb_neq in Hne. now rewrite Hne.
  - destruct (String.eqb k' k0) eqn:E; cbn.
    + apply String.eqb_eq in E. subst k0.
      apply String.eqb_neq in Hne. now rewrite Hne.
    + now rewrite IH.
Qed.

(** Storing the value a key already has changes nothing. *)
Lemma set_same_value (k : string) (v : value) (d : Dict.t) :
  Dict.get k d = Some v -> Dict.set k v d = d.
Proof.
  induction d as [|[k' v'] d IH]; cbn; [discriminate|].
  destruct (String.eqb k k') eqn:E.
  - now intros [= ->].
  - intros H. now rewrite IH.
Qed.

End DictFacts.

Module PyStrFacts.
Import PyStr.

Lemma upper_app (a b : string) : upper (a ++ b) = upper a ++ upper b.
Proof.
  unfold upper. induction a as [|c a IH]; cbn; [reflexivity | now rewrite IH].
Qed.

Lemma upper_length (s : string) : String.length (upper s) = String.length s.
Proof.
  unfold upper. induction s as [|c s IH]; cbn; [reflexivity | now rewrite IH].
Qed.

Lemma prefix_app (p s : string) : String.prefix p (p ++ s) = true.
Proof.
  induction p as [|c p IH]; cbn.
  - now destruct s.
  - destruct (ascii_dec c c); [exact IH | congruence].
Qed.

Lemma prefix_cons (c c' : ascii) (p s : string) :
  String.prefix (String c p) (String c' s)
  = Ascii.eqb c c' && String.prefix p s.
Proof.
  change (String.prefix (String c p) (String c' s))
    with (if ascii_dec c c' then String.prefix p s else false).
  destruct (ascii_dec c c') as [->|H].
  - now rewrite Ascii.eqb_refl.
  - apply Ascii.eqb_neq in H. now rewrite H.
Qed.

Lemma prefix_nil (s : string) : String.prefix EmptyString s = true.
Proof. now destruct s. Qed.

Lemma prefix_cons_neq (c c' : ascii) (p s : string) :
  c <> c' -> String.prefix (String c p) (String c' s) = false.
Proof.
  intros Hne. cbn. destruct (ascii_dec c c'); [contradiction | reflexivity].
Qed.

Lemma rstrip_cons (c : ascii) (s : string) :
  is_space c = false -> rstrip (String c s) = String c (rstrip s).
Proof.
  intros Hc. cbn. rewrite Hc. now destruct (rstrip s).
Qed.

Lemma rstrip_idem (s : string) : rstrip (rstrip s) = rstrip s.
Proof.
  induction s as [|c s IH]; [reflexivity|].
  cbn. destruct (rstrip s) as [|c' r] eqn:E.
  - destruct (is_space c) eqn:Hc; [reflexivity|].
    cbn. now rewrite Hc.
  - cbn [rstrip] in *. rewrite IH. reflexivity.
Qed.

(** What [lstrip] leaves is empty or starts with a character that is not
    whitespace. *)
Lemma lstrip_head (s : string) :
  lstrip s = EmptyString \/
  exists c t, lstrip s = String c t /\ is_space c = false.
Proof.
  induction s as [|c s IH]; cbn; [now left|].
  destruct (is_space c) eqn:Hc; [exact IH|].
  right. now exists c, s.
Qed.

Lemma lstrip_cons (c : ascii) (s : string) :
  is_space c = false -> lstrip (String c s) = String c s.
Proof. intros Hc. cbn. now rewrite Hc. Qed.

Lemma strip_idem (s : string) : strip (strip s) = strip s.
Proof.
  unfold strip.
  destruct (lstrip_head s) as [-> | (c & t & -> & Hc)]; [reflexivity|].
  rewrite (rstrip_cons c t Hc), (lstrip_cons c _ Hc).
  rewrite <- (rstrip_cons c t Hc). apply rstrip_idem.
Qed.

(** A string that starts with a character that is not whitespace keeps
    that start when trimmed. *)
Lemma strip_cons (c : ascii) (s : string) :
  is_space c = false -> strip (String c s) = String c (rstrip s).
Proof.
  intros Hc. unfold strip. now rewrite (lstrip_cons c s Hc), rstrip_cons.
Qed.

Lemma take_all (s : string) : take (String.length s) s = s.
Proof. induction s as [|c s IH]; cbn; [reflexivity | now rewrite IH]. Qed.

Lemma length_app (a b : string) :
  String.length (a ++ b) = (String.length a + String.length b)%nat.
Proof. induction a as [|c a IH]; cbn; [reflexivity | now rewrite IH]. Qed.

Lemma app_assoc (a b c : string) : (a ++ b) ++ c = a ++ b ++ c.
Proof. induction a as [|x a IH]; cbn; [reflexivity | now rewrite IH]. Qed.

Lemma drop_app (a b : string) : drop (String.length a) (a ++ b) = b.
Proof. induction a as [|c a IH]; cbn; [now destruct b | exact IH]. Qed.

End PyStrFacts.

(* ================================================================== *)
(** * Properties: normalisation of one item *)
(* ================================================================== *)

(** The per-position rule of the specification: [lab] is put in front of
    the trimmed option [o] unless [o] already starts with it, compared
    without regard to case. *)
Definition labelled (lab o : string) : string :=
  if String.prefix lab (PyStr.upper o) then o else lab ++ " " ++ o.

Definition relabel (opts : list string) : list string :=
  map (fun lo => labelled (fst lo) (snd lo)) (combine labels opts).

(** Whether the [correct] field of a parsed item, trimmed and uppercased,
    is one of the four letters. *)
Definition source_correct_valid (q : value) : bool :=
  match q with
  | VDict d =>
      match py_or (Dict.get_default "correct" VNone d) (VStr "") with
      | VStr c => is_letter (PyStr.upper (PyStr.strip c))
      | _ => false
      end
  | _ => false
  end.

Definition field (k : string) (q : value) : option value :=
  match q with
  | VDict d => Dict.get k d
  | _ => None
  end.

Definition trimmed (o : string) : Prop := PyStr.strip o = o.

Lemma label_upper (i : nat) (lab : string) :
  nth_error labels i = Some lab -> PyStr.upper lab = lab.
Proof.
  unfold labels.
  destruct i as [|[|[|[|i]]]]; cbn; try (intros [= <-]; reflexivity).
  destruct i; discriminate.
Qed.

Lemma labelled_prefix (i : nat) (lab o : string) :
  nth_error labels i = Some lab ->
  String.prefix lab (PyStr.upper (labelled lab o)) = true.
Proof.
  intros Hlab. unfold labelled.
  destruct (String.prefix lab (PyStr.upper o)) eqn:E; [exact E|].
  rewrite PyStrFacts.upper_app, (label_upper i lab Hlab).
  apply PyStrFacts.prefix_app.
Qed.

(** The loop over the options computes the per-position rule, and cannot
    run out of labels on at most four options. *)
Lemma label_options_relabel (opts : list string) :
  forall i,
    (i + List.length opts <= 4)%nat ->
    Forall trimmed opts ->
    label_options i opts =
      Ok (map (fun lo => labelled (fst lo) (snd lo))
              (combine (skipn i labels) opts)).
Proof.
  induction opts as [|o opts IH]; intros i Hlen Htrim.
  - cbn. now rewrite combine_nil.
  - inversion Htrim as [|? ? Ho Hrest]; subst.
    cbn [List.length] in Hlen.
    assert (exists lab, nth_error labels i = Some lab /\
                        skipn i labels = lab :: skipn (S i) labels)
      as (lab & Hlab & Hskip).
    { destruct i as [|[|[|[|i]]]]; try (eexists; split; reflexivity); lia. }
    cbn [label_options]. rewrite Hlab, Hskip.
    rewrite (IH (S i)) by (auto; lia).
    cbn. unfold labelled at 2, PyStr.startswith. now rewrite Ho.
Qed.

Lemma Forall_trimmed_map (A : Type) (f : A -> string) (l : list A) :
  Forall trimmed (map (fun a => PyStr.strip (f a)) l).
Proof.
  induction l; cbn; constructor; auto. apply PyStrFacts.strip_idem.
Qed.

Lemma first_four_length (opts : value) (l : list value) :
  first_four opts = Ok l -> (List.length l <= 4)%nat.
Proof.
  destruct opts; try discriminate; unfold first_four; intros [= <-].
  - rewrite length_map.
    unfold PyStr.slice.
    assert (forall n t, (List.length (PyStr.chars (PyStr.take n t)) <= n)%nat) as H.
    { induction n; destruct t; cbn; try lia. specialize (IHn t). lia. }
    etransitivity; [apply H|].
    unfold PyStr.slice_bound. cbn. lia.
  - match goal with |- context [match ?l with _ => _ end] =>
      destruct l as [|? [|? [|? [|? ?]]]]; cbn; lia
    end.
Qed.

Lemma normalize_options_relabel (repr : value -> string) (opts : value) :
  normalize_options repr opts =
    (l <- first_four opts ;;
     Ok (relabel (map (fun o => PyStr.strip (py_str repr o)) l))).
Proof.
  unfold normalize_options.
  destruct (first_four opts) as [l|e] eqn:E; [|reflexivity].
  cbn [bind]. apply first_four_length in E.
  rewrite label_options_relabel.
  - reflexivity.
  - rewrite length_map. cbn. lia.
  - apply Forall_trimmed_map.
Qed.

Lemma relabel_length (opts : list string) :
  (List.length (relabel opts) <= 4)%nat.
Proof.
  unfold relabel. rewrite length_map, length_combine. apply Nat.le_min_l.
Qed.

Lemma relabel_positions (opts : list string) (i : nat) (o : string) :
  nth_error (relabel opts) i = Some o ->
  exists lab, nth_error labels i = Some lab /\
              String.prefix lab (PyStr.upper o) = true.
Proof.
  unfold relabel. intros H.
  rewrite nth_error_map in H.
  destruct (nth_error (combine labels opts) i) as [[lab o0]|] eqn:E;
    [|discriminate].
  injection H as <-. cbn [fst snd].
  assert (nth_error labels i = Some lab) as Hlab.
  { clear -E. revert E. generalize labels. intros ls. revert ls opts.
    induction i; intros [|l ls] [|x xs]; cbn; try discriminate.
    - now intros [= -> ->].
    - apply IHi. }
  exists lab. split; [exact Hlab|]. eapply labelled_prefix; eauto.
Qed.

Section NormaliseFacts.

Variable repr : value -> string.

(** The options an item ends up with. *)
Definition normal_options (l : list value) : list string :=
  relabel (map (fun o => PyStr.strip (py_str repr o)) l).

(** What a completed pass over one item has read and written. *)
Lemma normalize_question_inv (q q' : value) :
  normalize_question repr q = Ok q' ->
  exists d l c e,
    q = VDict d /\
    first_four (Dict.get_default "options" (VList []) d) = Ok l /\
    field "options" q' = Some (VList (map VStr (normal_options l))) /\
    field "correct" q' = Some (VStr c) /\
    is_letter (PyStr.upper (PyStr.strip c)) = true /\
    (if source_correct_valid q then field "correct" q = Some (VStr c)
     else c = "A") /\
    field "explanation" q' = Some e /\ truthy e = true /\
    (if truthy (Dict.get_default "explanation" VNone d)
     then field "explanation" q = Some e
     else e = VStr no_explanation) /\
    (forall k, k <> "options" -> k <> "correct" -> k <> "explanation" ->
               field k q' = field k q).
Proof.
  destruct q as [| | | | | |d]; try discriminate.
  unfold normalize_question. rewrite normalize_options_relabel.
  destruct (first_four (Dict.get_default "options" (VList []) d)) as [l|]
    eqn:Hl; [|discriminate].
  cbn [bind]. fold (normal_options l).
  set (d1 := Dict.set "options" (VList (map VStr (normal_options l))) d).
  assert (Hget1 : forall k, k <> "options" -> Dict.get k d1 = Dict.get k d)
    by (intros; now apply DictFacts.get_set_other).
  assert (Hopt1 : Dict.get "options" d1 = Some (VList (map VStr (normal_options l))))
    by apply DictFacts.get_set_same.
  unfold Dict.get_default at 1. rewrite Hget1 by discriminate.
  set (src := py_or match Dict.get "correct" d with
                    | Some v => v | None => VNone end (VStr "")).
  assert (Hvalid : source_correct_valid (VDict d) =
                   match src with
                   | VStr c => is_letter (PyStr.upper (PyStr.strip c))
                   | _ => false
                   end) by reflexivity.
  destruct src as [| | | |c0| |] eqn:Hsrc; try discriminate.
  cbn [strip_method bind].
  assert (Hc0 : is_letter (PyStr.upper (PyStr.strip c0)) = true ->
                Dict.get "correct" d = Some (VStr c0)).
  { subst src. unfold py_or in Hsrc.
    destruct (Dict.get "correct" d) as [v|].
    - destruct (truthy v); [now subst v|].
      injection Hsrc as <-. discriminate.
    - cbn in Hsrc. injection Hsrc as <-. discriminate. }
  set (d2 := if is_letter (PyStr.upper (PyStr.strip c0)) then d1
             else Dict.set "correct" (VStr "A") d1).
  assert (Hget2 : forall k, k <> "correct" -> Dict.get k d2 = Dict.get k d1).
  { intros k Hk. subst d2. destruct (is_letter _); [reflexivity|].
    now apply DictFacts.get_set_other. }
  assert (Hcorr2 : exists c, Dict.get "correct" d2 = Some (VStr c) /\
              is_letter (PyStr.upper (PyStr.strip c)) = true /\
              (if source_correct_valid (VDict d)
               then Dict.get "correct" d = Some (VStr c) else c = "A")).
  { rewrite Hvalid. subst d2.
    destruct (is_letter (PyStr.upper (PyStr.strip c0))) eqn:Hv.
    - exists c0. rewrite Hget1 by discriminate. auto.
    - exists "A". rewrite DictFacts.get_set_same. auto. }
  destruct Hcorr2 as (c & Hc & Hcl & Hcsrc).
  assert (Ho2 : Dict.get "options" d2 = Some (VList (map VStr (normal_options l))))
    by (rewrite Hget2 by discriminate; exact Hopt1).
  assert (He2 : Dict.get "explanation" d2 = Dict.get "explanation" d)
    by (rewrite Hget2, Hget1 by discriminate; reflexivity).
  assert (Hk2 : forall k, k <> "options" -> k <> "correct" ->
                          Dict.get k d2 = Dict.get k d)
    by (intros; rewrite Hget2, Hget1; auto).
  unfold Dict.get_default at 1. rewrite He2.
  clearbody d2 d1. clear Hget1 Hget2 Hopt1.
  intros [= <-]. exists d, l, c.
  destruct (Dict.get "explanation" d) as [e|] eqn:He.
  - destruct (truthy e) eqn:Hte.
    + exists e. cbn [field]. unfold Dict.get_default.
      rewrite He, Hte, He2.
      repeat split; auto.
    + exists (VStr no_explanation). cbn [field]. unfold Dict.get_default.
      rewrite He, Hte, DictFacts.get_set_same.
      rewrite !DictFacts.get_set_other by discriminate.
      repeat split; auto.
      intros k H1 H2 H3. rewrite DictFacts.get_set_other; auto.
  - exists (VStr no_explanation). cbn [field truthy]. unfold Dict.get_default.
    rewrite He. cbn [truthy]. rewrite DictFacts.get_set_same.
    rewrite !DictFacts.get_set_other by discriminate.
    repeat split; auto.
    intros k H1 H2 H3. rewrite DictFacts.get_set_other; auto.
Qed.

End NormaliseFacts.

Lemma relabel_nth (opts : list string) (i : nat) (lab o : string) :
  nth_error labels i = Some lab ->
  nth_error opts i = Some o ->
  nth_error (relabel opts) i = Some (labelled lab o).
Proof.
  unfold relabel. intros Hlab Ho. rewrite nth_error_map.
  assert (nth_error (combine labels opts) i = Some (lab, o)) as ->; [|reflexivity].
  revert Hlab Ho. generalize labels. intros ls. revert ls opts.
  induction i; intros [|l ls] [|x xs]; cbn; try discriminate.
  - now intros [= ->] [= ->].
  - apply IHi.
Qed.

Lemma relabel_length_min (opts : list string) :
  List.length (relabel opts) = Nat.min 4 (List.length opts).
Proof. unfold relabel. now rewrite length_map, length_combine. Qed.

Definition foo_bar_baz_qux : list value :=
  [VStr "foo"; VStr "bar"; VStr "baz"; VStr "qux"].

Section ItemProperties.

Variable repr : value -> string.

(** C4, as the code has it: every item normalisation returns has at most
    four options (as many as the source supplied, up to four: a shorter
    list is not padded), option i starts with the i-th of the labels A),
    B), C), D) compared without regard to case, and its stored correct
    field, once trimmed and uppercased, is one of A, B, C, D; it is
    exactly A when the source value is invalid. *)
Theorem normalize_question_invariant (q q' : value) :
  normalize_question repr q = Ok q' ->
  exists opts c,
    field "options" q' = Some (VList (map VStr opts)) /\
    (List.length opts <= 4)%nat /\
    (forall given, field "options" q = Some (VList given) ->
                   List.length opts = Nat.min 4 (List.length given)) /\
    (forall i o, nth_error opts i = Some o ->
                 exists lab, nth_error labels i = Some lab /\
                             String.prefix lab (PyStr.upper o) = true) /\
    field "correct" q' = Some (VStr c) /\
    is_letter (PyStr.upper (PyStr.strip c)) = true /\
    (source_correct_valid q = false -> c = "A").
Proof.
  intros H.
  destruct (normalize_question_inv repr q q' H)
    as (d & l & c & e & -> & Hl & Hopts & Hc & Hcl & Hsrc & _).
  exists (normal_options repr l), c.
  split; [exact Hopts|].
  split; [apply relabel_length|].
  split.
  { intros given Hgiven. cbn [field] in Hgiven.
    unfold Dict.get_default in Hl. rewrite Hgiven in Hl.
    assert (l = firstn 4 given) as -> by (unfold first_four in Hl; congruence).
    unfold normal_options.
    rewrite relabel_length_min, length_map, length_firstn. lia. }
  split; [apply relabel_positions|].
  split; [exact Hc|].
  split; [exact Hcl|].
  intros Hinv. now rewrite Hinv in Hsrc.
Qed.

(** C5: the unlabelled options foo, bar, baz, qux become A) foo, B) bar,
    C) baz, D) qux; in general the options are the first four, trimmed,
    and at each position the label is put in front exactly when the
    trimmed option does not already start with it, compared without
    regard to case; an option that does is kept as it is. *)
Theorem normalize_options_labels :
  normalize_options repr (VList foo_bar_baz_qux)
    = Ok ["A) foo"; "B) bar"; "C) baz"; "D) qux"]
  /\ (forall q q', field "options" q = Some (VList foo_bar_baz_qux) ->
                   normalize_question repr q = Ok q' ->
                   field "options" q'
                   = Some (VList [VStr "A) foo"; VStr "B) bar";
                                  VStr "C) baz"; VStr "D) qux"]))
  /\ (forall given,
         normalize_options repr (VList given)
         = Ok (relabel (map (fun o => PyStr.strip (py_str repr o))
                            (firstn 4 given))))
  /\ (forall opts i lab o,
         nth_error labels i = Some lab ->
         nth_error opts i = Some o ->
         nth_error (relabel opts) i
         = Some (if String.prefix lab (PyStr.upper o) then o
                 else lab ++ " " ++ o))
  /\ (forall lab o, String.prefix lab (PyStr.upper o) = true ->
                    labelled lab o = o).
Proof.
  split; [reflexivity|].
  split.
  { intros q q' Hq H.
    destruct (normalize_question_inv repr q q' H)
      as (d & l & c & e & -> & Hl & Hopts & _).
    cbn [field] in Hq. unfold Dict.get_default in Hl. rewrite Hq in Hl.
    assert (l = firstn 4 foo_bar_baz_qux) as ->
        by (unfold first_four in Hl; congruence).
    exact Hopts. }
  split; [intros given; now rewrite normalize_options_relabel|].
  split; [exact relabel_nth|].
  intros lab o H. unfold labelled. now rewrite H.
Qed.

End ItemProperties.

(** The examples below hold only [str] options, [None], [bool] and [int],
    on which [str()] never consults the rendering of other objects. *)
Definition repr_unused : value -> string := fun _ => EmptyString.

(** C4 as stated fails: an item with a single option keeps a single option,
    and a [correct] field that is valid only after trimming and uppercasing
    is stored as it came. *)
Lemma normalize_question_short_options :
  normalize_question repr_unused (VDict [("options", VList [VStr "x"])])
  = Ok (VDict [("options", VList [VStr "A) x"]); ("correct", VStr "A");
               ("explanation", VStr no_explanation)])
  /\ List.length [VStr "A) x"] <> 4%nat
  /\ normalize_question repr_unused
       (VDict [("options", VList foo_bar_baz_qux); ("correct", VStr " b ");
               ("explanation", VStr "why")])
     = Ok (VDict [("options", VList [VStr "A) foo"; VStr "B) bar";
                                     VStr "C) baz"; VStr "D) qux"]);
                  ("correct", VStr " b "); ("explanation", VStr "why")])
  /\ is_letter " b " = false.
Proof. repeat split; discriminate. Qed.

Lemma normalize_question_invariant_witness :
  exists opts c,
    field "options" (VDict [("options", VList [VStr "A) x"]);
                            ("correct", VStr "A");
                            ("explanation", VStr no_explanation)])
    = Some (VList (map VStr opts)) /\
    (List.length opts <= 4)%nat /\
    (forall given, field "options" (VDict [("options", VList [VStr "x"])])
                   = Some (VList given) ->
                   List.length opts = Nat.min 4 (List.length given)) /\
    (forall i o, nth_error opts i = Some o ->
                 exists lab, nth_error labels i = Some lab /\
                             String.prefix lab (PyStr.upper o) = true) /\
    field "correct" (VDict [("options", VList [VStr "A) x"]);
                            ("correct", VStr "A");
                            ("explanation", VStr no_explanation)])
    = Some (VStr c) /\
    is_letter (PyStr.upper (PyStr.strip c)) = true /\
    (source_correct_valid (VDict [("options", VList [VStr "x"])]) = false ->
     c = "A").
Proof.
  apply (normalize_question_invariant repr_unused
           (VDict [("options", VList [VStr "x"])])).
  reflexivity.
Defined.

(* ================================================================== *)
(** * Properties: grading a quiz *)
(* ================================================================== *)

(** What [submit_answer] needs of a question: a dict whose [correct] field
    is a string that names one of the four letters. *)
Definition gradable (q : value) : Prop :=
  exists d c, q = VDict d /\ Dict.get "correct" d = Some (VStr c) /\
              is_letter (PyStr.upper (PyStr.strip c)) = true.

(** The responses to [n] submissions that answer a quiz of [n] questions. *)
Definition routes (n : nat) : list response :=
  (repeat (Redirect quiz_show_question) (n - 1) ++ [Redirect quiz_show_result])%list.

Lemma mapM_length (A B : Type) (f : A -> result B) (l : list A) :
  forall l', mapM f l = Ok l' -> List.length l' = List.length l.
Proof.
  induction l as [|a l IH]; cbn; intros l'.
  - now intros [= <-].
  - destruct (f a); [|discriminate]. cbn.
    destruct (mapM f l) as [bs|]; [|discriminate]. cbn.
    intros [= <-]. cbn. now rewrite (IH bs).
Qed.

Lemma mapM_Forall (A B : Type) (f : A -> result B) (P : B -> Prop) :
  (forall a b, f a = Ok b -> P b) ->
  forall l l', mapM f l = Ok l' -> Forall P l'.
Proof.
  intros Hf. induction l as [|a l IH]; cbn; intros l'.
  - intros [= <-]. constructor.
  - destruct (f a) as [b|] eqn:E; [|discriminate]. cbn.
    destruct (mapM f l) as [bs|]; [|discriminate]. cbn.
    intros [= <-]. constructor; eauto.
Qed.

Lemma normalize_all_gradable (repr : value -> string) (data qs : list value) :
  normalize_all repr data = Ok qs ->
  Forall gradable qs /\ List.length qs = List.length data.
Proof.
  intros H. split; [|now apply mapM_length in H].
  revert H. apply mapM_Forall. intros q q' Hq.
  destruct (normalize_question_inv repr q q' Hq)
    as (d & l & c & e & -> & _ & _ & Hc & Hcl & _).
  destruct q' as [| | | | | |d']; try discriminate.
  now exists d', c.
Qed.

Lemma is_letter_nonempty (c : string) :
  is_letter (PyStr.upper (PyStr.strip c)) = true -> c <> "".
Proof. intros H ->. discriminate. Qed.

Lemma list_index_nth (A : Type) (l : list A) (i : nat) (a : A) :
  nth_error l i = Some a -> list_index l (Z.of_nat i) = Ok a.
Proof.
  intros H. unfold list_index.
  assert (i < List.length l)%nat by (apply nth_error_Some; congruence).
  destruct (Z.ltb_spec (Z.of_nat i) 0); [lia|].
  destruct (Z.ltb_spec (Z.of_nat i) 0); [lia|].
  destruct (Z.leb_spec (Z.of_nat (List.length l)) (Z.of_nat i)); [lia|].
  cbn. now rewrite Nat2Z.id, H.
Qed.

(** One submission while the quiz is in progress. *)
Lemma submit_answer_step (f : form) (s : session) (qs : list value)
      (i : nat) (k : Z) (q : value) :
  quiz_data s = Some qs ->
  quiz_index s = Some (Z.of_nat i) ->
  quiz_score s = Some k ->
  nth_error qs i = Some q ->
  gradable q ->
  exists e,
    submit_answer f s =
      Ok (mkSession (Some qs) (Some (Z.of_nat (S i)))
                    (Some (k + if answer_matches q f then 1 else 0))
                    (Some e) (flashes s),
          Redirect (if (S i =? List.length qs)%nat then quiz_show_result
                    else quiz_show_question)).
Proof.
  intros Hd Hi Hk Hq (d & c & -> & Hc & Hcl).
  assert (i < List.length qs)%nat as Hlt by (apply nth_error_Some; congruence).
  unfold submit_answer. rewrite Hd, Hi, Hk. cbn [get_or]. unfold len.
  destruct (Z.leb_spec (Z.of_nat (List.length qs)) (Z.of_nat i)); [lia|].
  rewrite (list_index_nth _ qs i _ Hq). cbn [bind get_method].
  unfold Dict.get_default at 1. rewrite Hc.
  assert (py_or (VStr c) (VStr "") = VStr c) as ->.
  { unfold py_or. cbn. apply is_letter_nonempty in Hcl.
    apply String.eqb_neq in Hcl. now rewrite Hcl. }
  cbn [strip_method bind].
  exists (Dict.get_default "explanation" (VStr "") d).
  unfold answer_matches. cbn [stored_correct]. rewrite Hc.
  replace (Z.of_nat i + 1) with (Z.of_nat (S i)) by lia.
  assert ((Z.of_nat (List.length qs) <=? Z.of_nat (S i))
          = (S i =? List.length qs)%nat) as ->.
  { destruct (Z.leb_spec (Z.of_nat (List.length qs)) (Z.of_nat (S i)));
      destruct (Nat.eqb_spec (S i) (List.length qs)); try reflexivity; lia. }
  destruct (String.eqb _ _); [|rewrite Z.add_0_r];
    destruct (S i =? List.length qs)%nat; reflexivity.
Qed.

Lemma routes_step (n : nat) :
  routes (S (S n)) = Redirect quiz_show_question :: routes (S n).
Proof. unfold routes. cbn. now rewrite Nat.sub_0_r. Qed.

(** The answers to the questions that are left, from any point of a quiz. *)
Lemma submit_all_run (answers : list form) :
  forall (pre suf : list value) (s : session) (k : Z),
    quiz_data s = Some (pre ++ suf)%list ->
    quiz_index s = Some (len pre) ->
    quiz_score s = Some k ->
    Forall gradable suf ->
    List.length answers = List.length suf ->
    suf <> [] ->
    exists s',
      submit_all answers s = Ok (s', routes (List.length suf)) /\
      quiz_data s' = Some (pre ++ suf)%list /\
      quiz_index s' = Some (len (pre ++ suf)) /\
      quiz_score s' = Some (k + count_matches suf answers).
Proof.
  induction answers as [|f rest IH]; intros pre suf s k Hd Hi Hk Hg Hlen Hne.
  - destruct suf; [congruence | discriminate].
  - destruct suf as [|q suf]; [discriminate|].
    inversion Hg as [|? ? Hq Hg']; subst.
    assert (nth_error (pre ++ q :: suf) (List.length pre) = Some q) as Hnth
        by (rewrite nth_error_app2, Nat.sub_diag by lia; reflexivity).
    destruct (submit_answer_step f s _ _ k q Hd Hi Hk Hnth Hq) as (e & Hstep).
    assert ((S (List.length pre) =? List.length (pre ++ q :: suf))%nat
            = match suf with [] => true | _ => false end) as Hlast.
    { rewrite length_app. cbn [List.length].
      destruct suf; [apply Nat.eqb_eq | apply Nat.eqb_neq]; cbn; lia. }
    rewrite Hlast in Hstep. clear Hlast.
    cbn [submit_all]. rewrite Hstep. cbn [bind].
    destruct suf as [|q' suf].
    + destruct rest; [|discriminate].
      cbn [submit_all bind]. eexists. split; [reflexivity|]. cbn.
      split; [reflexivity|]. split.
      * unfold len. rewrite length_app. cbn. do 2 f_equal. lia.
      * do 2 f_equal. lia.
    + set (s1 := mkSession _ _ _ _ _).
      destruct (IH (pre ++ [q])%list (q' :: suf) s1
                   (k + if answer_matches q f then 1 else 0))
        as (s' & Hrun & Hd' & Hi' & Hk').
      * cbn. now rewrite <- app_assoc.
      * cbn. unfold len. rewrite length_app. cbn. do 2 f_equal. lia.
      * reflexivity.
      * exact Hg'.
      * cbn in Hlen |- *. lia.
      * discriminate.
      * rewrite Hrun. cbn [bind]. exists s'.
        rewrite <- app_assoc in Hd', Hi'. cbn in Hd', Hi'.
        split; [cbn [List.length]; now rewrite routes_step|].
        split; [exact Hd'|]. split; [exact Hi'|].
        rewrite Hk'. cbn [count_matches]. f_equal. lia.
Qed.

Section Grading.

Variable json_loads : string -> option value.
Variable repr : value -> string.

(** A successful start leaves the normalised questions, index 0 and
    score 0 in the session. *)
Lemma start_quiz_parse_started (s0 s1 : session) (raw : string) :
  start_quiz_parse json_loads repr s0 raw = Ok (s1, Redirect quiz_show_question) ->
  exists data qs,
    json_loads (extract_json_block raw) = Some (VList data) /\
    data <> [] /\
    normalize_all repr data = Ok qs /\
    s1 = mkSession (Some qs) (Some 0) (Some 0) (last_explanation s0) (flashes s0).
Proof.
  unfold start_quiz_parse.
  destruct (json_loads (extract_json_block raw)) as [[| | | | |[|q l]|]|];
    try discriminate.
  destruct (normalize_all repr (q :: l)) as [qs|] eqn:E; [|discriminate].
  cbn [bind]. intros [= <-].
  exists (q :: l), qs. repeat split; auto. discriminate.
Qed.

(** C1: after a quiz was started with N normalised questions (index 0,
    score 0), N submissions of which exactly K match their question's
    correct letter (both sides trimmed and uppercased) leave the score at
    K, and the N-th of them, and only it, is routed to the result view. *)
Theorem submit_all_scores
        (s0 s1 : session) (raw : string) (qs : list value)
        (answers : list form) :
  start_quiz_parse json_loads repr s0 raw = Ok (s1, Redirect quiz_show_question) ->
  quiz_data s1 = Some qs ->
  List.length answers = List.length qs ->
  quiz_index s1 = Some 0 /\ quiz_score s1 = Some 0 /\
  exists s2,
    submit_all answers s1 = Ok (s2, routes (List.length qs)) /\
    quiz_score s2 = Some (count_matches qs answers) /\
    quiz_index s2 = Some (len qs) /\
    quiz_data s2 = Some qs /\
    last (routes (List.length qs)) RenderStart = Redirect quiz_show_result.
Proof.
  intros Hstart Hqs Hlen.
  destruct (start_quiz_parse_started s0 s1 raw Hstart)
    as (data & qs' & _ & Hne & Hnorm & ->).
  cbn in Hqs. injection Hqs as ->.
  split; [reflexivity|]. split; [reflexivity|].
  destruct (normalize_all_gradable repr data qs Hnorm) as (Hg & Hl).
  assert (qs <> []) as Hqne by (destruct qs, data; cbn in Hl; congruence).
  destruct (submit_all_run answers [] qs
              (mkSession (Some qs) (Some 0) (Some 0)
                         (last_explanation s0) (flashes s0)) 0)
    as (s2 & Hrun & Hd & Hi & Hk); auto.
  exists s2. repeat split; auto.
  unfold routes. now rewrite last_last.
Qed.

End Grading.

(* ================================================================== *)
(** * Worked examples *)
(* ================================================================== *)

Definition empty_session : session := mkSession None None None None [].

(** The text between the brackets of a generated array of two questions. *)
Definition example_mid : string := dquote "
  {'question': 'Q1', 'options': ['A) a', 'B) b', 'C) c', 'D) d'],
   'correct': 'B', 'explanation': 'because'},
  {'question': 'Q2', 'options': ['A) a', 'B) b', 'C) c', 'D) d'],
   'correct': 'C', 'explanation': 'so'}
".

(** What stands between the fences: the array on lines of its own. *)
Definition example_content : string := "
[" ++ example_mid ++ "]
".

(** A response of the Generation Client: prose around a fenced block. *)
Definition example_raw : string :=
  "Here is your quiz:
" ++ "```" ++ "json" ++ example_content ++ "```" ++ "
Good luck!".

(** The same block after prose that itself mentions a fence. *)
Definition example_raw_prose_fence : string :=
  "Wrap code in ``` marks.
" ++ "```" ++ "json" ++ example_content ++ "```" ++ "
Good luck!".

Definition example_question (question correct explanation : string) : value :=
  VDict [("question", VStr question);
         ("options", VList [VStr "A) a"; VStr "B) b"; VStr "C) c"; VStr "D) d"]);
         ("correct", VStr correct);
         ("explanation", VStr explanation)].

Definition example_questions : list value :=
  [example_question "Q1" "B" "because"; example_question "Q2" "C" "so"].

Definition started_session : session :=
  mkSession (Some example_questions) (Some 0) (Some 0) None [].

Definition completed_session : session :=
  mkSession (Some example_questions) (Some 2) (Some 1) (Some (VStr "so")) [].

Example start_quiz_parse_example :
  start_quiz_parse JsonRef.loads repr_unused empty_session example_raw
  = Ok (started_session, Redirect quiz_show_question).
Proof. vm_compute. reflexivity. Qed.

Lemma submit_all_scores_witness :
  quiz_index started_session = Some 0 /\ quiz_score started_session = Some 0 /\
  exists s2,
    submit_all [form_of [("answer", " b ")]; form_of [("answer", "A")]]
               started_session
    = Ok (s2, routes 2) /\
    quiz_score s2
    = Some (count_matches example_questions
              [form_of [("answer", " b ")]; form_of [("answer", "A")]]) /\
    quiz_index s2 = Some (len example_questions) /\
    quiz_data s2 = Some example_questions /\
    last (routes 2) RenderStart = Redirect quiz_show_result.
Proof.
  apply (submit_all_scores JsonRef.loads repr_unused empty_session
           started_session example_raw example_questions).
  - vm_compute. reflexivity.
  - reflexivity.
  - reflexivity.
Defined.

Example submit_all_example :
  submit_all [form_of [("answer", " b ")]; form_of [("answer", "A")]]
             started_session
  = Ok (completed_session,
        [Redirect quiz_show_question; Redirect quiz_show_result]).
Proof. vm_compute. reflexivity. Qed.

Lemma submit_answer_completed_noop_witness :
  submit_answer (form_of [("answer", "C")]) completed_session
  = Ok (completed_session, Redirect quiz_show_result).
Proof.
  apply (submit_answer_completed_noop (form_of [("answer", "C")])
                                      completed_session).
  reflexivity.
Defined.

(** C2 as stated fails: the result page of one completed quiz, rendered
    twice, creates two rows. *)
Lemma show_result_twice_two_rows :
  completed completed_session /\
  0 < len (get_or (quiz_data completed_session) []) /\
  fst (show_result_all [1000; 1060] 7 completed_session [])
  = [Models.mkQuizResult 1 7 1 2 1000; Models.mkQuizResult 2 7 1 2 1060] /\
  List.length (fst (show_result_all [1000; 1060] 7 completed_session []))
  <> 1%nat.
Proof.
  repeat split; discriminate.
Qed.

Lemma show_result_one_row_per_render_witness :
  exists new,
    fst (show_result_all [1000; 1060] 7 completed_session []) = ([] ++ new)%list /\
    List.length new = List.length [1000; 1060] /\
    map Models.timestamp new = [1000; 1060] /\
    Forall (records 7 (get_or (quiz_score completed_session) 0)
                    (len (get_or (quiz_data completed_session) []))) new.
Proof.
  apply (show_result_one_row_per_render [1000; 1060] 7 completed_session []).
  - reflexivity.
  - reflexivity.
Defined.

Lemma show_result_in_progress_persists_witness :
  fst (show_result 1000 7
         (mkSession (Some example_questions) (Some 1) (Some 1) None []) [])
  = [Models.mkQuizResult 1 7 1 2 1000].
Proof.
  apply (show_result_in_progress_persists 1000 7
           (mkSession (Some example_questions) (Some 1) (Some 1) None []) []
           example_questions).
  - reflexivity.
  - discriminate.
  - cbn. lia.
Defined.

(* ================================================================== *)
(** * Properties: extraction of the fenced block *)
(* ================================================================== *)

(** [s.endswith("`")] *)
Fixpoint ends_with_tick (s : string) : bool :=
  match s with
  | EmptyString => false
  | String c EmptyString => Ascii.eqb c "`"
  | String _ s' => ends_with_tick s'
  end.

(** A text in which no fence can start: it holds no three backticks in a
    row, and does not end with a backtick. *)
Definition fence_free (s : string) : Prop :=
  PyStr.find s Fence.ticks = -1 /\ ends_with_tick s = false.

Module FenceFacts.
Import PyStr Fence.

Definition absent (s : string) : Prop := find_first ticks s = None.

Lemma find_absent (s : string) : PyStr.find s ticks = -1 <-> absent s.
Proof.
  unfold PyStr.find, absent. destruct (find_first ticks s); split;
    try reflexivity; try discriminate. lia.
Qed.

Lemma absent_head (s : string) : absent s -> String.prefix ticks s = false.
Proof.
  unfold absent. intros H.
  destruct (String.prefix ticks s) eqn:E; [|reflexivity].
  destruct s; cbn [find_first] in H; rewrite E in H; discriminate.
Qed.

Lemma absent_tail (c : ascii) (s : string) : absent (String c s) -> absent s.
Proof.
  intros H. pose proof (absent_head _ H) as Hh.
  unfold absent in *. cbn [find_first] in H. rewrite Hh in H.
  now destruct (find_first ticks s).
Qed.

Lemma ends_tail (c : ascii) (s : string) :
  ends_with_tick (String c s) = false -> ends_with_tick s = false.
Proof. destruct s; [reflexivity | auto]. Qed.

(** No fence starts inside a fence-free text that is followed by a
    fence. *)
Lemma no_fence_inside (c : ascii) (x rest : string) :
  absent (String c x) -> ends_with_tick (String c x) = false ->
  String.prefix ticks (String c x ++ ticks ++ rest) = false.
Proof.
  intros Ha He. apply absent_head in Ha. unfold ticks in *.
  change (String c x ++ ?r) with (String c (x ++ r)).
  rewrite PyStrFacts.prefix_cons in Ha |- *.
  destruct (Ascii.eqb "`" c) eqn:E1; [|reflexivity].
  apply Ascii.eqb_eq in E1. subst c. cbn [andb] in *.
  destruct x as [|c2 x]; [discriminate He|].
  change (String c2 x ++ ?r) with (String c2 (x ++ r)).
  rewrite PyStrFacts.prefix_cons in Ha |- *.
  destruct (Ascii.eqb "`" c2) eqn:E2; [|reflexivity].
  apply Ascii.eqb_eq in E2. subst c2. cbn [andb] in *.
  destruct x as [|c3 x]; [discriminate He|].
  change (String c3 x ++ ?r) with (String c3 (x ++ r)).
  rewrite PyStrFacts.prefix_cons in Ha |- *.
  destruct (Ascii.eqb "`" c3) eqn:E3; [|reflexivity].
  cbn [andb] in Ha. now rewrite PyStrFacts.prefix_nil in Ha.
Qed.

(** The lazy group stops at the closing fence. *)
Lemma lazy_group_found (x rest : string) :
  absent x -> ends_with_tick x = false ->
  lazy_group (x ++ ticks ++ rest) = Some x.
Proof.
  induction x as [|c x IH]; intros Ha He.
  - change (EmptyString ++ ticks ++ rest) with (ticks ++ rest).
    destruct rest; reflexivity.
  - pose proof (no_fence_inside c x rest Ha He) as Hp.
    change (String c x ++ ticks ++ rest) with (String c (x ++ ticks ++ rest)) in *.
    cbn [lazy_group]. rewrite Hp.
    rewrite IH; [reflexivity | eapply absent_tail; eauto | eapply ends_tail; eauto].
Qed.

(** The search passes over a fence-free text. *)
Lemma search_skips (x rest : string) :
  absent x -> ends_with_tick x = false ->
  search (x ++ ticks ++ rest) = search (ticks ++ rest).
Proof.
  induction x as [|c x IH]; intros Ha He; [reflexivity|].
  pose proof (no_fence_inside c x rest Ha He) as Hp.
  change (String c x ++ ticks ++ rest) with (String c (x ++ ticks ++ rest)) in *.
  cbn [search]. unfold match_here at 1. rewrite Hp.
  apply IH; [eapply absent_tail; eauto | eapply ends_tail; eauto].
Qed.

Lemma search_here (s g : string) : match_here s = Some g -> search s = Some g.
Proof. intros H. destruct s; cbn [search]; now rewrite H. Qed.

Lemma space_code (c : ascii) : is_space c = true -> (nat_of_ascii c <= 32)%nat.
Proof.
  unfold is_space. intros H.
  apply orb_true_iff in H. destruct H as [H|H];
    apply andb_true_iff in H; destruct H as [_ H]; apply Nat.leb_le in H; lia.
Qed.

Lemma space_upper (c : ascii) : is_space c = true -> upper_char c = c.
Proof.
  intros H. apply space_code in H. unfold upper_char.
  destruct (Nat.leb_spec 97 (nat_of_ascii c)); [lia | reflexivity].
Qed.

Lemma space_not_J (c : ascii) : is_space c = true -> upper_char c <> "J"%char.
Proof.
  intros H E. rewrite (space_upper c H) in E. subst c. discriminate H.
Qed.

Lemma space_not_tick (c : ascii) : is_space c = true -> Ascii.eqb c "`" = false.
Proof.
  intros H. destruct (Ascii.eqb c "`") eqn:E; [|reflexivity].
  apply Ascii.eqb_eq in E. subst c. discriminate H.
Qed.

(** A text that trims to a bracketed one does not start with the tag. *)
Lemma no_tag (content mid rest : string) :
  strip content = String "[" mid ->
  String.prefix "JSON" (upper (content ++ rest)) = false.
Proof.
  destruct content as [|c content]; [discriminate|].
  intros H. unfold upper. cbn [append map_chars].
  apply PyStrFacts.prefix_cons_neq.
  destruct (is_space c) eqn:Hc.
  - intros E. now apply (space_not_J c Hc).
  - rewrite (PyStrFacts.strip_cons c content Hc) in H.
    injection H as -> _. discriminate.
Qed.

Lemma match_here_fenced (tag content post mid : string) :
  tag = EmptyString \/ upper tag = "JSON" ->
  absent content ->
  strip content = String "[" mid ->
  ends_with_tick content = false ->
  match_here (ticks ++ tag ++ content ++ ticks ++ post) = Some content.
Proof.
  intros Htag Ha Hs He. unfold match_here.
  rewrite PyStrFacts.prefix_app.
  change (drop 3 (ticks ++ ?r)) with r.
  cbv zeta.
  destruct Htag as [-> | Htag].
  - change (EmptyString ++ ?r) with r.
    rewrite (no_tag content mid _ Hs).
    now apply lazy_group_found.
  - rewrite PyStrFacts.upper_app, Htag, PyStrFacts.prefix_app.
    assert (String.length tag = 4%nat) as Hlen
        by (rewrite <- PyStrFacts.upper_length, Htag; reflexivity).
    rewrite <- Hlen, PyStrFacts.drop_app.
    now rewrite lazy_group_found.
Qed.

Lemma rstrip_empty_ends (t : string) :
  rstrip t = EmptyString -> ends_with_tick t = false.
Proof.
  induction t as [|c t IH]; [reflexivity|].
  cbn [rstrip]. destruct (rstrip t) eqn:E; [|discriminate].
  destruct (is_space c) eqn:Hc; [|discriminate]. intros _.
  destruct t; [now apply space_not_tick | now apply IH].
Qed.

Lemma rstrip_bracket_ends (t : string) :
  forall x, rstrip t = x ++ "]" -> ends_with_tick t = false.
Proof.
  induction t as [|c t IH]; intros x.
  - destruct x; discriminate.
  - cbn [rstrip]. destruct (rstrip t) as [|c' r] eqn:E.
    + destruct (is_space c); [destruct x; discriminate|].
      destruct x as [|? [|? ?]]; try discriminate.
      intros [= ->]. destruct t as [|a t]; [reflexivity|].
      change (ends_with_tick (String a t) = false).
      now apply rstrip_empty_ends.
    + destruct x as [|c0 x]; [discriminate|].
      intros [= _ Hx]. destruct t as [|a t]; [discriminate E|].
      change (ends_with_tick (String a t) = false).
      apply (IH x Hx).
Qed.

Lemma lstrip_ends (s : string) :
  ends_with_tick (lstrip s) = false -> ends_with_tick s = false.
Proof.
  induction s as [|c s IH]; [reflexivity|].
  cbn [lstrip]. destruct (is_space c) eqn:Hc; [|auto].
  intros H. destruct s; [now apply space_not_tick | now apply IH].
Qed.

(** A text that trims to one closed by a bracket does not end with a
    backtick. *)
Lemma strip_bracket_ends (s x : string) :
  strip s = x ++ "]" -> ends_with_tick s = false.
Proof.
  unfold strip. intros H. apply lstrip_ends. eapply rstrip_bracket_ends; eauto.
Qed.

Lemma find_open (mid : string) : PyStr.find (String "[" mid) "[" = 0.
Proof.
  unfold PyStr.find. cbn [find_first].
  now rewrite PyStrFacts.prefix_cons, PyStrFacts.prefix_nil.
Qed.

Lemma find_last_close (x : string) :
  find_last "]" (x ++ "]") = Some (String.length x).
Proof.
  induction x as [|c x IH]; [reflexivity|].
  change (String c x ++ "]") with (String c (x ++ "]")).
  cbn [find_last String.length]. now rewrite IH.
Qed.

Lemma slice_all (s : string) :
  slice s 0 (Z.of_nat (String.length s)) = s.
Proof.
  unfold slice, slice_bound.
  destruct (Z.ltb_spec (Z.of_nat (String.length s)) 0); [lia|].
  rewrite Z.min_id, Nat2Z.id. cbn [Z.ltb Z.compare].
  rewrite Z.min_l by lia. cbn [Z.to_nat drop].
  rewrite Nat.sub_0_r. destruct s; [reflexivity|].
  cbn [drop]. apply PyStrFacts.take_all.
Qed.

(** The candidate taken from prose around a fenced, bracketed block. *)
Lemma extract_fenced_block (pre tag content post mid : string) :
  fence_free pre ->
  tag = EmptyString \/ upper tag = "JSON" ->
  PyStr.find content ticks = -1 ->
  strip content = "[" ++ mid ++ "]" ->
  extract_json_block (pre ++ ticks ++ tag ++ content ++ ticks ++ post)
  = "[" ++ mid ++ "]".
Proof.
  intros [Hpre Hend] Htag Hc Hs.
  apply find_absent in Hpre. apply find_absent in Hc.
  unfold extract_json_block.
  rewrite (search_skips pre _ Hpre Hend).
  rewrite (search_here _ content).
  2:{ apply (match_here_fenced tag content post (mid ++ "]")); auto.
      apply (strip_bracket_ends content ("[" ++ mid)).
      rewrite Hs. now rewrite <- PyStrFacts.app_assoc. }
  rewrite Hs. cbv zeta.
  change ("[" ++ mid ++ "]") with (String "[" (mid ++ "]")).
  rewrite find_open. unfold PyStr.rfind.
  change (String "[" (mid ++ "]")) with (String "[" mid ++ "]").
  rewrite find_last_close.
  cbn [String.length].
  assert ((0 <? Z.of_nat (S (String.length mid))) = true) as ->
      by (apply Z.ltb_lt; lia).
  assert ((Z.of_nat (S (String.length mid)) =? -1) = false) as ->
      by (apply Z.eqb_neq; lia).
  cbn [Z.eqb negb andb].
  replace (Z.of_nat (S (String.length mid)) + 1)
    with (Z.of_nat (String.length (String "[" mid ++ "]"))).
  - apply slice_all.
  - rewrite PyStrFacts.length_app. cbn [String.length]. lia.
Qed.

End FenceFacts.

(* ================================================================== *)
(** * Properties: the normaliser on well-formed output *)
(* ================================================================== *)

(** A well-formed question object: four options that start with their
    labels, a correct letter, and a non-empty explanation. *)
Definition well_formed (q : value) : Prop :=
  exists d o1 o2 o3 o4 c e,
    q = VDict d /\
    Dict.get "options" d = Some (VList [VStr o1; VStr o2; VStr o3; VStr o4]) /\
    String.prefix "A)" o1 = true /\ String.prefix "B)" o2 = true /\
    String.prefix "C)" o3 = true /\ String.prefix "D)" o4 = true /\
    Dict.get "correct" d = Some (VStr c) /\ is_letter c = true /\
    Dict.get "explanation" d = Some (VStr e) /\ e <> "".

Definition trim_value (o : value) : value :=
  match o with
  | VStr s => VStr (PyStr.strip s)
  | _ => o
  end.

(** The question object with each of its options trimmed. *)
Definition trim_options (q : value) : value :=
  match q with
  | VDict d =>
      match Dict.get "options" d with
      | Some (VList l) => VDict (Dict.set "options" (VList (map trim_value l)) d)
      | _ => q
      end
  | _ => q
  end.

(** No option of the question object has whitespace around it. *)
Definition options_trimmed (q : value) : Prop :=
  forall l, field "options" q = Some (VList l) -> map trim_value l = l.

Lemma trim_options_id (q : value) : options_trimmed q -> trim_options q = q.
Proof.
  destruct q as [| | | | | |d]; try reflexivity.
  unfold options_trimmed, trim_options. cbn [field]. intros H.
  destruct (Dict.get "options" d) as [[| | | | |l|]|] eqn:E; try reflexivity.
  rewrite (H l eq_refl). now rewrite DictFacts.set_same_value.
Qed.

Lemma prefix_split (p s : string) :
  String.prefix p s = true -> exists r, s = p ++ r.
Proof.
  revert s. induction p as [|c p IH]; intros s H.
  - now exists s.
  - destruct s as [|c' s]; [discriminate|].
    rewrite PyStrFacts.prefix_cons in H.
    apply andb_true_iff in H. destruct H as [Hc Hp].
    apply Ascii.eqb_eq in Hc. subst c'.
    destruct (IH s Hp) as (r & ->). now exists r.
Qed.

(** An option that starts with its label keeps it when trimmed. *)
Lemma labelled_kept (i : nat) (lab o : string) :
  nth_error labels i = Some lab ->
  String.prefix lab o = true ->
  labelled lab (PyStr.strip o) = PyStr.strip o.
Proof.
  intros Hlab Hp. destruct (prefix_split lab o Hp) as (r & ->).
  unfold labelled, labels in *.
  assert (String.prefix lab (PyStr.upper (PyStr.strip (lab ++ r))) = true) as ->;
    [|reflexivity].
  destruct i as [|[|[|[|i]]]]; cbn in Hlab; try (destruct i; discriminate);
    injection Hlab as <-;
    change (String ?a (String ?b EmptyString) ++ r) with (String a (String b r));
    rewrite PyStrFacts.strip_cons by reflexivity;
    rewrite PyStrFacts.rstrip_cons by reflexivity;
    unfold PyStr.upper; cbn [PyStr.map_chars];
    rewrite !PyStrFacts.prefix_cons, PyStrFacts.prefix_nil; reflexivity.
Qed.

Lemma letter_valid (c : string) :
  is_letter c = true ->
  c <> "" /\ is_letter (PyStr.upper (PyStr.strip c)) = true.
Proof.
  unfold is_letter, letters. cbn [existsb]. intros H.
  repeat (apply orb_true_iff in H; destruct H as [H|H];
          [apply String.eqb_eq in H; subst c; split; [discriminate | reflexivity]|]).
  discriminate.
Qed.

Lemma mapM_map (A B : Type) (f : A -> result B) (g : A -> B) (P : A -> Prop) :
  (forall a, P a -> f a = Ok (g a)) ->
  forall l, Forall P l -> mapM f l = Ok (map g l).
Proof.
  intros Hf. induction 1 as [|a l Ha Hl IH]; [reflexivity|].
  cbn. now rewrite (Hf a Ha), IH.
Qed.

(** Normalisation keeps a well-formed question object, trimming its
    options. *)
Lemma normalize_well_formed (repr : value -> string) (q : value) :
  well_formed q -> normalize_question repr q = Ok (trim_options q).
Proof.
  intros (d & o1 & o2 & o3 & o4 & c & e & -> & Ho & H1 & H2 & H3 & H4
          & Hc & Hl & He & Hne).
  unfold normalize_question, trim_options. rewrite Ho.
  rewrite normalize_options_relabel.
  unfold Dict.get_default at 1. rewrite Ho.
  change (first_four (VList [VStr o1; VStr o2; VStr o3; VStr o4]))
    with (Ok [VStr o1; VStr o2; VStr o3; VStr o4]).
  cbn [bind map py_str]. unfold relabel, labels. cbn [combine map fst snd].
  rewrite (labelled_kept 0 "A)" o1), (labelled_kept 1 "B)" o2),
    (labelled_kept 2 "C)" o3), (labelled_kept 3 "D)" o4) by (reflexivity || auto).
  change (map trim_value [VStr o1; VStr o2; VStr o3; VStr o4])
    with [VStr (PyStr.strip o1); VStr (PyStr.strip o2);
          VStr (PyStr.strip o3); VStr (PyStr.strip o4)].
  set (d1 := Dict.set "options" _ d).
  assert (Hget1 : forall k, k <> "options" -> Dict.get k d1 = Dict.get k d)
    by (intros; now apply DictFacts.get_set_other).
  destruct (letter_valid c Hl) as (Hcne & Hcl).
  unfold Dict.get_default. rewrite Hget1, Hc by discriminate.
  unfold py_or. cbn [truthy].
  apply String.eqb_neq in Hcne. rewrite Hcne. cbn [negb strip_method bind].
  rewrite Hcl, Hget1, He by discriminate. cbn [truthy].
  apply String.eqb_neq in Hne. now rewrite Hne.
Qed.

Section FencedBlock.

Variable json_loads : string -> option value.
Variable repr : value -> string.

(** C3, as the code has it: for a raw text made of prose in which no
    fence can start (no three backticks in a row, no backtick at its
    end), a fenced block (three backticks, an optional json tag in any
    case) whose content holds no three backticks in a row and is, up to
    surrounding whitespace, a bracketed JSON array of N >= 1 well-formed
    question objects, and any prose after it, normalisation succeeds and
    returns exactly N records: the input objects with each option
    trimmed, so the input objects themselves when no option has
    whitespace around it. *)
Theorem start_quiz_parse_fenced
        (s : session) (pre tag content post mid : string)
        (items : list value) :
  fence_free pre ->
  tag = EmptyString \/ PyStr.upper tag = "JSON" ->
  PyStr.find content Fence.ticks = -1 ->
  PyStr.strip content = "[" ++ mid ++ "]" ->
  json_loads ("[" ++ mid ++ "]") = Some (VList items) ->
  items <> [] ->
  Forall well_formed items ->
  start_quiz_parse json_loads repr s
    (pre ++ "```" ++ tag ++ content ++ "```" ++ post)
  = Ok (mkSession (Some (map trim_options items)) (Some 0) (Some 0)
                  (last_explanation s) (flashes s),
        Redirect quiz_show_question)
  /\ List.length (map trim_options items) = List.length items
  /\ (Forall options_trimmed items -> map trim_options items = items).
Proof.
  intros Hpre Htag Hc Hs Hloads Hne Hwf.
  split; [|split].
  - unfold start_quiz_parse.
    pose proof (FenceFacts.extract_fenced_block pre tag content post mid
                  Hpre Htag Hc Hs) as Hx.
    unfold Fence.ticks in Hx. rewrite Hx, Hloads. destruct items as [|q qs]; [congruence|].
    unfold normalize_all.
    rewrite (mapM_map _ _ (normalize_question repr) trim_options well_formed);
      auto using normalize_well_formed.
  - apply length_map.
  - intros Ht. clear -Ht. induction Ht as [|q l Hq Hl IH]; [reflexivity|].
    cbn. now rewrite IH, trim_options_id.
Qed.

End FencedBlock.

Example example_questions_decoded :
  JsonRef.loads (PyStr.strip example_content) = Some (VList example_questions).
Proof. vm_compute. reflexivity. Qed.

Lemma example_questions_well_formed : Forall well_formed example_questions.
Proof.
  repeat constructor; unfold well_formed, example_question;
    do 7 eexists; (split; [reflexivity|]);
    repeat (split; [reflexivity|]); discriminate.
Qed.

(** C3 as stated fails: prose that mentions a fence before the block makes
    the parse step fail although the block holds a valid array of
    well-formed questions; so does a valid array of no questions; and an
    option with whitespace after it comes back trimmed. *)
Lemma start_quiz_parse_fenced_fails :
  JsonRef.loads (PyStr.strip example_content) = Some (VList example_questions)
  /\ Forall well_formed example_questions
  /\ start_quiz_parse JsonRef.loads repr_unused empty_session
       example_raw_prose_fence
     = Ok (flash parse_failure_message "danger" empty_session,
           Redirect quiz_start_quiz)
  /\ JsonRef.loads "[]" = Some (VList [])
  /\ start_quiz_parse JsonRef.loads repr_unused empty_session "```json
[]
```"
     = Ok (flash parse_failure_message "danger" empty_session,
           Redirect quiz_start_quiz)
  /\ normalize_question repr_unused
       (VDict [("options", VList [VStr "A) a "; VStr "B) b"; VStr "C) c";
                                  VStr "D) d"]);
               ("correct", VStr "B"); ("explanation", VStr "why")])
     = Ok (VDict [("options", VList [VStr "A) a"; VStr "B) b"; VStr "C) c";
                                     VStr "D) d"]);
                  ("correct", VStr "B"); ("explanation", VStr "why")]).
Proof.
  split; [exact example_questions_decoded|].
  split; [exact example_questions_well_formed|].
  repeat split; vm_compute; reflexivity.
Qed.

Lemma start_quiz_parse_fenced_witness :
  start_quiz_parse JsonRef.loads repr_unused empty_session
    ("Here is your quiz:
" ++ "```" ++ "json" ++ example_content ++ "```" ++ "
Good luck!")
  = Ok (mkSession (Some (map trim_options example_questions)) (Some 0) (Some 0)
                  None [],
        Redirect quiz_show_question)
  /\ List.length (map trim_options example_questions)
     = List.length example_questions
  /\ (Forall options_trimmed example_questions ->
      map trim_options example_questions = example_questions).
Proof.
  apply (start_quiz_parse_fenced JsonRef.loads repr_unused empty_session
           "Here is your quiz:
" "json" example_content "
Good luck!" example_mid example_questions).
  - split; reflexivity.
  - right. reflexivity.
  - reflexivity.
  - reflexivity.
  - vm_compute. reflexivity.
  - discriminate.
  - exact example_questions_well_formed.
Defined.


(* ================================================================== *)
(** * Further properties: the helpers *)
(* ================================================================== *)

(** [clamp] with ordered bounds lands in the range, keeps a value that is
    already inside, sends the values outside to the nearer bound, and is
    idempotent. *)
Theorem clamp_range (n lo hi : Z) :
  lo <= hi ->
  lo <= clamp n lo hi <= hi /\
  (lo <= n <= hi -> clamp n lo hi = n) /\
  (n < lo -> clamp n lo hi = lo) /\
  (hi < n -> clamp n lo hi = hi) /\
  clamp (clamp n lo hi) lo hi = clamp n lo hi.
Proof. unfold clamp. lia. Qed.

Lemma clamp_range_witness :
  1 <= clamp 100 1 50 <= 50 /\
  (1 <= 100 <= 50 -> clamp 100 1 50 = 100) /\
  (100 < 1 -> clamp 100 1 50 = 1) /\
  (50 < 100 -> clamp 100 1 50 = 50) /\
  clamp (clamp 100 1 50) 1 50 = clamp 100 1 50.
Proof. apply (clamp_range 100 1 50). lia. Defined.

(** [c in s] for a character. *)
Fixpoint has_char (c : ascii) (s : string) : bool :=
  match s with
  | EmptyString => false
  | String c' s' => Ascii.eqb c c' || has_char c s'
  end.

Module ExtractFacts.
Import PyStr Fence.

Lemma has_char_app (c : ascii) (a b : string) :
  has_char c (a ++ b) = has_char c a || has_char c b.
Proof.
  induction a as [|x a IH]; [reflexivity|].
  cbn [append has_char]. now rewrite IH, orb_assoc.
Qed.

(** Without a backtick there is no fence. *)
Lemma search_none (s : string) : has_char "`" s = false -> search s = None.
Proof.
  induction s as [|c s IH]; [reflexivity|].
  cbn [has_char]. intros H. apply orb_false_iff in H. destruct H as [Hc Hs].
  cbn [search]. unfold match_here, ticks.
  rewrite PyStrFacts.prefix_cons, Hc. cbn [andb]. now apply IH.
Qed.

Lemma single_prefix (c c' : ascii) (s : string) :
  String.prefix (String c EmptyString) (String c' s) = Ascii.eqb c c'.
Proof.
  now rewrite PyStrFacts.prefix_cons, PyStrFacts.prefix_nil, andb_true_r.
Qed.

Lemma find_first_absent (c : ascii) (s : string) :
  has_char c s = false -> find_first (String c EmptyString) s = None.
Proof.
  induction s as [|c' s IH]; [reflexivity|].
  cbn [has_char find_first]. intros H.
  apply orb_false_iff in H. destruct H as [Hc Hs].
  now rewrite single_prefix, Hc, IH.
Qed.

Lemma find_last_absent (c : ascii) (s : string) :
  has_char c s = false -> find_last (String c EmptyString) s = None.
Proof.
  induction s as [|c' s IH]; [reflexivity|].
  cbn [has_char find_last]. intros H.
  apply orb_false_iff in H. destruct H as [Hc Hs].
  now rewrite IH, single_prefix, Hc.
Qed.

Lemma find_first_after (c : ascii) (pre rest : string) :
  has_char c pre = false ->
  find_first (String c EmptyString) (pre ++ String c rest)
  = Some (String.length pre).
Proof.
  induction pre as [|c' pre IH]; intros H.
  - cbn [append find_first]. now rewrite single_prefix, Ascii.eqb_refl.
  - cbn [has_char] in H. apply orb_false_iff in H. destruct H as [Hc Hs].
    cbn [append find_first String.length].
    now rewrite single_prefix, Hc, IH.
Qed.

Lemma find_last_before (c : ascii) (x post : string) :
  has_char c post = false ->
  find_last (String c EmptyString) (x ++ String c post)
  = Some (String.length x).
Proof.
  intros H. induction x as [|c' x IH].
  - cbn [append find_last String.length].
    now rewrite (find_last_absent c post H), single_prefix, Ascii.eqb_refl.
  - cbn [append find_last String.length]. now rewrite IH.
Qed.

Lemma take_app (a b : string) : take (String.length a) (a ++ b) = a.
Proof. induction a as [|c a IH]; cbn; [now destruct b | now rewrite IH]. Qed.

(** [s[len(a) : len(a) + len(m)]] on [s = a + m + b]. *)
Lemma slice_middle (a m b : string) :
  slice (a ++ m ++ b) (Z.of_nat (String.length a))
        (Z.of_nat (String.length a + String.length m)) = m.
Proof.
  unfold slice, slice_bound.
  rewrite !PyStrFacts.length_app.
  destruct (Z.ltb_spec (Z.of_nat (String.length a)) 0); [lia|].
  destruct (Z.ltb_spec (Z.of_nat (String.length a + String.length m)) 0); [lia|].
  rewrite !Z.min_l by lia. rewrite !Nat2Z.id.
  replace (String.length a + String.length m - String.length a)%nat
    with (String.length m) by lia.
  now rewrite PyStrFacts.drop_app, take_app.
Qed.

End ExtractFacts.

(** A response without any backtick that holds a bracketed span: the
    candidate is the text from the first opening bracket to the last
    closing one, whatever prose surrounds it. *)
Theorem extract_json_block_bare (pre mid post : string) :
  has_char "`" (pre ++ "[" ++ mid ++ "]" ++ post) = false ->
  has_char "[" pre = false ->
  has_char "]" post = false ->
  extract_json_block (pre ++ "[" ++ mid ++ "]" ++ post) = "[" ++ mid ++ "]".
Proof.
  intros Htick Hpre Hpost.
  assert (PyStr.find (pre ++ "[" ++ mid ++ "]" ++ post) "["
          = Z.of_nat (String.length pre)) as Hfind.
  { unfold PyStr.find.
    change (pre ++ "[" ++ mid ++ "]" ++ post)
      with (pre ++ String "[" (mid ++ "]" ++ post)).
    now rewrite (ExtractFacts.find_first_after "[" pre _ Hpre). }
  assert (PyStr.rfind (pre ++ "[" ++ mid ++ "]" ++ post) "]"
          = Z.of_nat (String.length pre + S (String.length mid))) as Hrfind.
  { unfold PyStr.rfind.
    replace (pre ++ "[" ++ mid ++ "]" ++ post)
      with ((pre ++ "[" ++ mid) ++ String "]" post)
      by (now rewrite !PyStrFacts.app_assoc).
    rewrite (ExtractFacts.find_last_before "]" _ post Hpost).
    rewrite !PyStrFacts.length_app. reflexivity. }
  unfold extract_json_block.
  rewrite (ExtractFacts.search_none _ Htick). cbv zeta.
  rewrite Hfind, Hrfind.
  assert ((Z.of_nat (String.length pre) =? -1) = false) as ->
      by (apply Z.eqb_neq; lia).
  assert ((Z.of_nat (String.length pre + S (String.length mid)) =? -1) = false)
    as -> by (apply Z.eqb_neq; lia).
  assert ((Z.of_nat (String.length pre)
           <? Z.of_nat (String.length pre + S (String.length mid))) = true)
    as -> by (apply Z.ltb_lt; lia).
  cbn [negb andb].
  replace (Z.of_nat (String.length pre + S (String.length mid)) + 1)
    with (Z.of_nat (String.length pre + String.length ("[" ++ mid ++ "]"))).
  - replace (pre ++ "[" ++ mid ++ "]" ++ post)
      with (pre ++ ("[" ++ mid ++ "]") ++ post)
      by (now rewrite !PyStrFacts.app_assoc).
    apply ExtractFacts.slice_middle.
  - rewrite !PyStrFacts.length_app. cbn [String.length]. lia.
Qed.

Lemma extract_json_block_bare_witness :
  extract_json_block ("Sure: " ++ "[" ++ "1, [2], 3" ++ "]" ++ " - done")
  = "[" ++ "1, [2], 3" ++ "]".
Proof.
  apply (extract_json_block_bare "Sure: " "1, [2], 3" " - done");
    reflexivity.
Defined.

(** A response without any backtick that lacks an opening or a closing
    bracket is passed on unchanged, for [json.loads] to reject. *)
Theorem extract_json_block_fallback (text : string) :
  has_char "`" text = false ->
  has_char "[" text = false \/ has_char "]" text = false ->
  extract_json_block text = text.
Proof.
  intros Htick H. unfold extract_json_block.
  rewrite (ExtractFacts.search_none _ Htick). cbv zeta.
  unfold PyStr.find, PyStr.rfind.
  destruct H as [H|H].
  - now rewrite (ExtractFacts.find_first_absent "[" text H).
  - rewrite (ExtractFacts.find_last_absent "]" text H).
    cbn [Z.eqb negb]. now rewrite andb_false_r.
Qed.

Lemma extract_json_block_fallback_witness :
  extract_json_block "I cannot help with that]" = "I cannot help with that]".
Proof.
  apply (extract_json_block_fallback "I cannot help with that]").
  - reflexivity.
  - left. reflexivity.
Defined.

(* ================================================================== *)
(** * Further properties: starting a quiz *)
(* ================================================================== *)

Definition difficulties : list string := ["easy"; "medium"; "hard"].

(** The difficulty put in the prompt is always one of easy, medium, hard:
    the submitted value in lower case when that is one of the three, and
    medium when the field is absent, empty or anything else. *)
Theorem effective_difficulty_spec (f : form) :
  In (effective_difficulty f) difficulties /\
  effective_difficulty f =
    match f "difficulty" with
    | None | Some EmptyString => "medium"
    | Some v => if existsb (String.eqb (PyStr.lower v)) difficulties
                then PyStr.lower v else "medium"
    end.
Proof.
  unfold effective_difficulty, difficulties.
  split.
  - destruct (existsb _ _) eqn:E; [|cbn; auto].
    apply existsb_exists in E. destruct E as (x & Hin & Hx).
    apply String.eqb_eq in Hx. now subst x.
  - destruct (f "difficulty") as [[|c v]|]; reflexivity.
Qed.

Module Store.

(** A row of the table [document]. *)
Record Document : Type := mkDocument {
  id : Z;
  user_id : option Z;
  filename : option string;
  extracted_text : option string;
  summary : option string
}.

(** The part of a row [start_quiz] reads. *)
Definition to_model (d : Document) : Models.Document :=
  Models.mkDocument (extracted_text d).

Definition owned_by (uid : Z) (d : Document) : bool :=
  match user_id d with
  | Some u => u =? uid
  | None => false
  end.

(** The query's [order_by(Document.id.desc()).first()] over the rows that
    passed the filter. *)
Fixpoint highest (best : option Document) (rows : list Document)
  : option Document :=
  match rows with
  | [] => best
  | d :: rows' =>
      highest (match best with
               | Some b => if id b <? id d then Some d else best
               | None => Some d
               end) rows'
  end.

End Store.

(** [get_latest_doc(user_id)] over the rows of the table. *)
Definition get_latest_doc (user_id : Z) (documents : list Store.Document)
  : option Store.Document :=
  Store.highest None (filter (Store.owned_by user_id) documents).

Lemma highest_spec (rows : list Store.Document) :
  forall best,
    match Store.highest best rows with
    | Some r =>
        (best = Some r \/ In r rows) /\
        (forall b, best = Some b -> Store.id b <= Store.id r) /\
        (forall d, In d rows -> Store.id d <= Store.id r)
    | None => best = None /\ rows = []
    end.
Proof.
  induction rows as [|d rows IH]; intros best; cbn [Store.highest].
  - destruct best as [b|]; [|auto].
    split; [auto|]. split; [intros b' [= <-]; lia | intros d []].
  - specialize (IH (match best with
                    | Some b => if Store.id b <? Store.id d then Some d else best
                    | None => Some d
                    end)).
    destruct (Store.highest _ rows) as [r|].
    + destruct IH as (Hin & Hbest & Hrows).
      split; [|split].
      * destruct Hin as [Hin|Hin]; [|right; now right].
        destruct best as [b|]; [|injection Hin as <-; right; now left].
        destruct (Store.id b <? Store.id d);
          [injection Hin as <-; right; now left | now left].
      * intros b ->. destruct (Z.ltb_spec (Store.id b) (Store.id d)) as [Hlt|Hge].
        -- specialize (Hbest d eq_refl). lia.
        -- now apply Hbest.
      * intros d' [<-|Hd']; [|now apply Hrows].
        destruct best as [b|]; [|now apply Hbest].
        destruct (Z.ltb_spec (Store.id b) (Store.id d)) as [Hlt|Hge].
        -- now apply Hbest.
        -- specialize (Hbest b eq_refl). lia.
    + destruct IH as (Hbest & _). destruct best as [b|]; [|discriminate].
      destruct (Store.id b <? Store.id d); discriminate.
Qed.

(** [get_latest_doc] returns a document of the user whose id is the
    highest among the user's documents, and nothing exactly when the user
    has no document. *)
Theorem get_latest_doc_spec (uid : Z) (documents : list Store.Document) :
  match get_latest_doc uid documents with
  | Some r =>
      In r documents /\ Store.user_id r = Some uid /\
      forall d, In d documents -> Store.user_id d = Some uid ->
                Store.id d <= Store.id r
  | None => forall d, In d documents -> Store.user_id d <> Some uid
  end.
Proof.
  unfold get_latest_doc.
  pose proof (highest_spec (filter (Store.owned_by uid) documents) None) as H.
  assert (Hown : forall d, Store.owned_by uid d = true <-> Store.user_id d = Some uid).
  { intros d. unfold Store.owned_by. destruct (Store.user_id d) as [u|].
    - rewrite Z.eqb_eq. split; congruence.
    - split; discriminate. }
  destruct (Store.highest None _) as [r|].
  - destruct H as ([H|H] & _ & Hmax); [discriminate|].
    apply filter_In in H. destruct H as (Hin & Ho).
    split; [exact Hin|]. split; [now apply Hown|].
    intros d Hd Hu. apply Hmax, filter_In. split; [exact Hd | now apply Hown].
  - destruct H as (_ & Hnil). intros d Hd Hu.
    assert (In d (filter (Store.owned_by uid) documents)) as Hf
        by (apply filter_In; split; [exact Hd | now apply Hown]).
    rewrite Hnil in Hf. destruct Hf.
Qed.

Section StartQuiz.

Variable json_loads : string -> option value.
Variable repr : value -> string.
Variable generate_content : string -> string.

(** The view [/quiz/start] for the logged-in user [current_user_id]. *)
Definition start_quiz_view (documents : list Store.Document)
           (current_user_id : Z) (method : http_method) (f : form)
           (s : session) : result (session * response) :=
  start_quiz json_loads repr generate_content method
             (option_map Store.to_model (get_latest_doc current_user_id documents))
             f s.

Definition upload_first (s : session) : result (session * response) :=
  Ok (flash "Please upload a document first." "warning" s, Redirect docs_upload).

(** Only the latest document counts: when the user's document with the
    highest id has no text (or only whitespace), GET and POST alike end in
    the warning and the redirect to the upload page, even if an older
    document has text; the quiz state of the session is untouched. *)
Theorem start_quiz_view_latest_blank
        (documents : list Store.Document) (uid : Z) (method : http_method)
        (f : form) (s : session) (d : Store.Document) :
  In d documents ->
  Store.user_id d = Some uid ->
  (forall d', In d' documents -> Store.user_id d' = Some uid ->
              d' = d \/ Store.id d' < Store.id d) ->
  PyStr.strip (or_default (Store.extracted_text d) "") = "" ->
  start_quiz_view documents uid method f s = upload_first s.
Proof.
  intros Hin Hu Hmax Hblank. unfold start_quiz_view.
  pose proof (get_latest_doc_spec uid documents) as H.
  destruct (get_latest_doc uid documents) as [r|].
  - destruct H as (Hr & Hur & Hle).
    assert (r = d) as ->.
    { destruct (Hmax r Hr Hur) as [E|Hlt]; [exact E|].
      specialize (Hle d Hin Hu). lia. }
    unfold start_quiz. cbn [option_map Store.to_model Models.extracted_text].
    now rewrite Hblank.
  - now destruct (H d Hin).
Qed.

(** A user without any document is sent to the upload page. *)
Theorem start_quiz_view_no_document
        (documents : list Store.Document) (uid : Z) (method : http_method)
        (f : form) (s : session) :
  (forall d, In d documents -> Store.user_id d <> Some uid) ->
  start_quiz_view documents uid method f s = upload_first s.
Proof.
  intros Hnone. unfold start_quiz_view.
  pose proof (get_latest_doc_spec uid documents) as H.
  destruct (get_latest_doc uid documents) as [r|].
  - destruct H as (Hr & Hur & _). now destruct (Hnone r Hr).
  - reflexivity.
Qed.

(** A GET of [/quiz/start] never starts a quiz: it renders the form or
    redirects to the upload page, and leaves the quiz state alone. *)
Theorem start_quiz_get_read_only
        (latest : option Models.Document) (f : form) (s : session) :
  exists s' r,
    start_quiz json_loads repr generate_content GET latest f s = Ok (s', r) /\
    (r = RenderStart \/ r = Redirect docs_upload) /\
    quiz_data s' = quiz_data s /\ quiz_index s' = quiz_index s /\
    quiz_score s' = quiz_score s /\ last_explanation s' = last_explanation s.
Proof.
  unfold start_quiz.
  destruct (String.eqb _ _); eexists; eexists; (split; [reflexivity|]); auto 10.
Qed.

(** Whatever the session held before (an unfinished quiz included), a
    quiz that starts has index 0, score 0 and at least one question, and
    every stored question is a dict whose correct field names one of the
    four letters: [submit_answer] can grade each of them. *)
Theorem start_quiz_started
        (method : http_method) (latest : option Models.Document) (f : form)
        (s s1 : session) :
  start_quiz json_loads repr generate_content method latest f s
  = Ok (s1, Redirect quiz_show_question) ->
  quiz_index s1 = Some 0 /\ quiz_score s1 = Some 0 /\
  flashes s1 = flashes s /\
  exists qs, quiz_data s1 = Some qs /\ qs <> [] /\ Forall gradable qs.
Proof.
  unfold start_quiz.
  destruct (String.eqb _ _); [discriminate|].
  destruct method; [discriminate|].
  intros H. apply start_quiz_parse_started in H.
  destruct H as (data & qs & _ & Hne & Hnorm & ->).
  destruct (normalize_all_gradable repr data qs Hnorm) as (Hg & Hl).
  repeat split. exists qs. repeat split; auto.
  destruct qs, data; cbn in Hl; congruence.
Qed.

End StartQuiz.

(* ================================================================== *)
(** * Further properties: what normalisation accepts, keeps and rejects *)
(* ================================================================== *)

(** The items the loop can handle: a dict whose options (an empty list
    when absent) are a list or a string, and whose correct field is falsy,
    absent or a string. *)
Definition normalizable (q : value) : bool :=
  match q with
  | VDict d =>
      match Dict.get_default "options" (VList []) d with
      | VList _ | VStr _ =>
          match py_or (Dict.get_default "correct" VNone d) (VStr "") with
          | VStr _ => true
          | _ => false
          end
      | _ => false
      end
  | _ => false
  end.

Lemma mapM_raise (A B : Type) (f : A -> result B) (good rest : list A)
      (bad : A) (e : exn) :
  (forall a, In a good -> exists b, f a = Ok b) ->
  f bad = Raise e ->
  mapM f (good ++ bad :: rest) = Raise e.
Proof.
  intros Hgood Hbad. induction good as [|a good IH]; cbn.
  - now rewrite Hbad.
  - destruct (Hgood a (or_introl eq_refl)) as (b & ->). cbn.
    rewrite IH; [reflexivity|]. intros a' Ha'. apply Hgood. now right.
Qed.

Lemma mapM_Forall2 (A B : Type) (f : A -> result B) (l : list A) :
  forall l', mapM f l = Ok l' -> Forall2 (fun a b => f a = Ok b) l l'.
Proof.
  induction l as [|a l IH]; cbn; intros l'.
  - intros [= <-]. constructor.
  - destruct (f a) as [b|] eqn:E; [|discriminate]. cbn.
    destruct (mapM f l) as [bs|]; [|discriminate]. cbn.
    intros [= <-]. constructor; auto.
Qed.

Section NormaliseMore.

Variable json_loads : string -> option value.
Variable repr : value -> string.

(** Normalisation of an item succeeds exactly on the items described by
    [normalizable]; on any other it raises [AttributeError] (no [get] or
    no [strip] method) or [TypeError] (options that cannot be sliced). *)
Theorem normalize_question_outcome (q : value) :
  if normalizable q
  then exists q', normalize_question repr q = Ok q'
  else normalize_question repr q = Raise AttributeError \/
       normalize_question repr q = Raise TypeError.
Proof.
  destruct q as [| | | | | |d]; try (left; reflexivity).
  unfold normalizable, normalize_question.
  rewrite normalize_options_relabel.
  set (opts := Dict.get_default "options" (VList []) d).
  assert (Hcorr : forall v, Dict.get_default "correct" VNone
                              (Dict.set "options" v d)
                            = Dict.get_default "correct" VNone d).
  { intros v. unfold Dict.get_default.
    now rewrite DictFacts.get_set_other by discriminate. }
  destruct opts as [| | | |t|l|]; try (right; reflexivity);
    cbn [first_four bind]; rewrite Hcorr;
    destruct (py_or (Dict.get_default "correct" VNone d) (VStr ""));
    try (left; reflexivity); cbn [strip_method bind]; eexists; reflexivity.
Qed.

(** One item the loop cannot handle makes the whole request raise: no
    message is flashed and the session is not written, even when every
    other item is fine. *)
Theorem start_quiz_parse_raises
        (s : session) (raw : string) (good rest : list value) (bad : value) :
  json_loads (extract_json_block raw) = Some (VList (good ++ bad :: rest)) ->
  forallb normalizable good = true ->
  normalizable bad = false ->
  start_quiz_parse json_loads repr s raw = Raise AttributeError \/
  start_quiz_parse json_loads repr s raw = Raise TypeError.
Proof.
  intros Hloads Hgood Hbad. unfold start_quiz_parse. rewrite Hloads.
  assert (forall e, normalize_question repr bad = Raise e ->
                    normalize_all repr (good ++ bad :: rest) = Raise e) as Hall.
  { intros e He. apply mapM_raise; [|exact He].
    intros a Ha. rewrite forallb_forall in Hgood.
    pose proof (normalize_question_outcome a) as H.
    now rewrite (Hgood a Ha) in H. }
  pose proof (normalize_question_outcome bad) as H. rewrite Hbad in H.
  destruct (good ++ bad :: rest)%list as [|q qs] eqn:E;
    [destruct good; discriminate|].
  destruct H as [H|H]; rewrite (Hall _ H); [left | right]; reflexivity.
Qed.

(** Every record normalisation returns has a truthy explanation: the
    source's own when that is truthy, and the fixed text otherwise; every
    field other than options, correct and explanation (the question text
    among them) is kept as it came. *)
Theorem normalize_question_explanation (q q' : value) :
  normalize_question repr q = Ok q' ->
  exists e,
    field "explanation" q' = Some e /\ truthy e = true /\
    (forall e0, field "explanation" q = Some e0 -> truthy e0 = true -> e = e0) /\
    (field "explanation" q = None -> e = VStr no_explanation) /\
    (forall e0, field "explanation" q = Some e0 -> truthy e0 = false ->
                e = VStr no_explanation) /\
    (forall k, k <> "options" -> k <> "correct" -> k <> "explanation" ->
               field k q' = field k q).
Proof.
  intros H.
  destruct (normalize_question_inv repr q q' H)
    as (d & l & c & e & -> & _ & _ & _ & _ & _ & He & Ht & Hsrc & Hframe).
  exists e. cbn [field] in *. unfold Dict.get_default in Hsrc.
  split; [exact He|]. split; [exact Ht|].
  split; [|split; [|split; [|exact Hframe]]].
  - intros e0 H0 Ht0. rewrite H0, Ht0 in Hsrc. congruence.
  - intros H0. now rewrite H0 in Hsrc.
  - intros e0 H0 Ht0. now rewrite H0, Ht0 in Hsrc.
Qed.

(** The loop returns one record per item, in the order of the items, each
    the normalisation of its item. *)
Theorem normalize_all_pointwise (data qs : list value) :
  normalize_all repr data = Ok qs ->
  List.length qs = List.length data /\
  forall i q, nth_error data i = Some q ->
              exists q', nth_error qs i = Some q' /\
                         normalize_question repr q = Ok q'.
Proof.
  intros H. split; [now apply mapM_length in H|].
  apply mapM_Forall2 in H.
  induction H as [|a b l l' Hab Hl IH]; intros i q Hi.
  - destruct i; discriminate.
  - destruct i as [|i]; cbn in *.
    + injection Hi as <-. now exists b.
    + now apply IH.
Qed.

End NormaliseMore.

(* ================================================================== *)
(** * Further properties: walking through a quiz *)
(* ================================================================== *)

Lemma count_matches_bounds (qs : list value) :
  forall answers,
    0 <= count_matches qs answers <= Z.of_nat (List.length answers) /\
    count_matches qs answers <= len qs.
Proof.
  unfold len.
  induction qs as [|q qs IH]; intros [|f answers]; cbn [count_matches List.length];
    try lia.
  specialize (IH answers). destruct (answer_matches q f); lia.
Qed.

(** While the quiz is in progress, [show_question] renders the question
    at the index with its 1-based number and the number of questions, and
    writes nothing to the session. *)
Theorem show_question_in_progress
        (s : session) (qs : list value) (i : nat) (q : value) :
  quiz_data s = Some qs ->
  quiz_index s = Some (Z.of_nat i) ->
  nth_error qs i = Some q ->
  show_question s = Ok (s, RenderQuestion (Z.of_nat i + 1) (len qs) q).
Proof.
  intros Hd Hi Hq. unfold show_question. rewrite Hd, Hi. cbn [get_or].
  assert (i < List.length qs)%nat by (apply nth_error_Some; congruence).
  destruct qs as [|q0 qs0]; [destruct i; discriminate|].
  unfold len.
  destruct (Z.leb_spec (Z.of_nat (List.length (q0 :: qs0))) (Z.of_nat i)); [lia|].
  now rewrite (list_index_nth _ _ i q Hq).
Qed.

(** Whatever the session holds, [show_question] leaves the quiz state as
    it is; with no question list (absent or empty) it warns and redirects
    to the start form, and with the index at or past the end it redirects
    to the result view. *)
Theorem show_question_read_only (s s' : session) (r : response) :
  show_question s = Ok (s', r) ->
  quiz_data s' = quiz_data s /\ quiz_index s' = quiz_index s /\
  quiz_score s' = quiz_score s /\
  (get_or (quiz_data s) [] = [] -> r = Redirect quiz_start_quiz) /\
  (get_or (quiz_data s) [] <> [] ->
   len (get_or (quiz_data s) []) <= get_or (quiz_index s) 0 ->
   r = Redirect quiz_show_result).
Proof.
  unfold show_question.
  destruct (quiz_data s) as [[|q qs]|] eqn:Hd; cbn [get_or].
  - intros [= <- <-]. repeat split; auto. congruence.
  - destruct (Z.leb_spec (len (q :: qs)) (get_or (quiz_index s) 0)).
    + intros [= <- <-]. repeat split; auto. discriminate.
    + destruct (list_index (q :: qs) (get_or (quiz_index s) 0));
        [|discriminate].
      cbn [bind]. intros [= <- <-]. repeat split; auto; [discriminate | lia].
  - intros [= <- <-]. repeat split; auto. congruence.
Qed.

(** One submission keeps the invariant 0 <= score <= index <= number of
    questions: on gradable questions it cannot raise, the question list is
    not touched, the score grows by at most one, the index by exactly one
    while the quiz is in progress, and the result view is the target
    exactly when the quiz is complete afterwards. *)
Theorem submit_answer_invariant
        (f : form) (s : session) (qs : list value) (i k : Z) :
  quiz_data s = Some qs ->
  Forall gradable qs ->
  quiz_index s = Some i ->
  quiz_score s = Some k ->
  0 <= k <= i -> i <= len qs ->
  exists s' r i' k',
    submit_answer f s = Ok (s', r) /\
    quiz_data s' = Some qs /\
    quiz_index s' = Some i' /\ quiz_score s' = Some k' /\
    0 <= k' <= i' /\ i' <= len qs /\
    k <= k' <= k + 1 /\
    i' = (if i <? len qs then i + 1 else i) /\
    (r = Redirect quiz_show_result <-> i' = len qs).
Proof.
  intros Hd Hg Hi Hk Hki Hlen.
  destruct (Z.ltb_spec i (len qs)) as [Hlt|Hge].
  - assert (Z.of_nat (Z.to_nat i) = i) as Hnat by lia.
    unfold len in *.
    destruct (nth_error qs (Z.to_nat i)) as [q|] eqn:Hq;
      [|apply nth_error_None in Hq; lia].
    assert (gradable q) as Hgq
        by (rewrite Forall_forall in Hg; eapply Hg, nth_error_In; eauto).
    rewrite <- Hnat in Hi.
    destruct (submit_answer_step f s qs (Z.to_nat i) k q Hd Hi Hk Hq Hgq)
      as (e & Hstep).
    rewrite Hstep. do 4 eexists. split; [reflexivity|].
    cbn [quiz_data quiz_index quiz_score].
    split; [reflexivity|]. split; [reflexivity|]. split; [reflexivity|].
    split; [destruct (answer_matches q f); lia|].
    split; [lia|].
    split; [destruct (answer_matches q f); lia|].
    split; [destruct (Z.ltb_spec (Z.of_nat (Z.to_nat i))
                                 (Z.of_nat (List.length qs))); lia|].
    destruct (Nat.eqb_spec (S (Z.to_nat i)) (List.length qs)); split;
      try reflexivity; try discriminate; lia.
  - exists s, (Redirect quiz_show_result), i, k.
    unfold submit_answer. rewrite Hd, Hi. cbn [get_or].
    destruct (Z.leb_spec (len qs) i); [|lia].
    repeat split; auto; lia.
Qed.

(** The answers to the first questions of a quiz, short of the last. *)
Lemma submit_all_prefix (answers : list form) :
  forall (pre suf : list value) (s : session) (k : Z),
    quiz_data s = Some (pre ++ suf)%list ->
    quiz_index s = Some (len pre) ->
    quiz_score s = Some k ->
    Forall gradable suf ->
    (List.length answers < List.length suf)%nat ->
    exists s',
      submit_all answers s
      = Ok (s', repeat (Redirect quiz_show_question) (List.length answers)) /\
      quiz_data s' = Some (pre ++ suf)%list /\
      quiz_index s' = Some (len pre + Z.of_nat (List.length answers)) /\
      quiz_score s' = Some (k + count_matches suf answers).
Proof.
  induction answers as [|f rest IH]; intros pre suf s k Hd Hi Hk Hg Hlen.
  - exists s. cbn. rewrite Z.add_0_r. repeat split; auto.
    rewrite Hk. f_equal. destruct suf; cbn; lia.
  - destruct suf as [|q suf]; [cbn in Hlen; lia|].
    inversion Hg as [|? ? Hq Hg']; subst.
    assert (nth_error (pre ++ q :: suf) (List.length pre) = Some q) as Hnth
        by (rewrite nth_error_app2, Nat.sub_diag by lia; reflexivity).
    destruct (submit_answer_step f s _ _ k q Hd Hi Hk Hnth Hq) as (e & Hstep).
    assert ((S (List.length pre) =? List.length (pre ++ q :: suf))%nat = false)
      as Hlast.
    { apply Nat.eqb_neq. rewrite length_app. cbn in Hlen |- *. lia. }
    rewrite Hlast in Hstep. clear Hlast.
    cbn [submit_all]. rewrite Hstep. cbn [bind].
    set (s1 := mkSession _ _ _ _ _).
    destruct (IH (pre ++ [q])%list suf s1
                 (k + if answer_matches q f then 1 else 0))
      as (s' & Hrun & Hd' & Hi' & Hk').
    + cbn. now rewrite <- app_assoc.
    + cbn. unfold len. rewrite length_app. cbn. do 2 f_equal. lia.
    + reflexivity.
    + exact Hg'.
    + cbn in Hlen. lia.
    + rewrite Hrun. cbn [bind]. exists s'.
      rewrite <- app_assoc in Hd'. cbn in Hd'.
      split; [reflexivity|]. split; [exact Hd'|].
      split.
      * rewrite Hi'. unfold len. rewrite length_app. cbn. f_equal. lia.
      * rewrite Hk'. cbn [count_matches]. f_equal. lia.
Qed.

Section QuizRun.

Variable json_loads : string -> option value.
Variable repr : value -> string.

(** In the middle of a quiz: after a start with N questions and k < N
    submissions, every response so far led back to the question page, the
    score is the number of matching answers (at most k), and the question
    page shows question k + 1 of N. *)
Theorem quiz_midway
        (s0 s1 : session) (raw : string) (qs : list value)
        (answers : list form) :
  start_quiz_parse json_loads repr s0 raw = Ok (s1, Redirect quiz_show_question) ->
  quiz_data s1 = Some qs ->
  (List.length answers < List.length qs)%nat ->
  exists s2 q,
    submit_all answers s1
    = Ok (s2, repeat (Redirect quiz_show_question) (List.length answers)) /\
    quiz_score s2 = Some (count_matches qs answers) /\
    0 <= count_matches qs answers <= Z.of_nat (List.length answers) /\
    nth_error qs (List.length answers) = Some q /\
    show_question s2
    = Ok (s2, RenderQuestion (Z.of_nat (List.length answers) + 1) (len qs) q).
Proof.
  intros Hstart Hqs Hlen.
  destruct (start_quiz_parse_started json_loads repr s0 s1 raw Hstart)
    as (data & qs' & _ & Hne & Hnorm & ->).
  cbn in Hqs. injection Hqs as ->.
  destruct (normalize_all_gradable repr data qs Hnorm) as (Hg & _).
  destruct (submit_all_prefix answers [] qs
              (mkSession (Some qs) (Some 0) (Some 0)
                         (last_explanation s0) (flashes s0)) 0)
    as (s2 & Hrun & Hd & Hi & Hk); auto.
  destruct (nth_error qs (List.length answers)) as [q|] eqn:Hq;
    [|apply nth_error_None in Hq; lia].
  exists s2, q. cbn in Hd, Hi, Hk.
  split; [exact Hrun|]. split; [exact Hk|].
  split; [apply count_matches_bounds|]. split; [reflexivity|].
  now apply show_question_in_progress.
Qed.

(** A whole quiz, from the start to the result page: after N answers of
    which K match, the result page records one row (user, K, N, server
    time) after the rows the table had, renders K of N with the feedback
    of K / N * 100, and 0 <= K <= N. *)
Theorem quiz_recorded
        (s0 s1 : session) (raw : string) (qs : list value)
        (answers : list form) (now uid : Z) (rows : Models.table) :
  start_quiz_parse json_loads repr s0 raw = Ok (s1, Redirect quiz_show_question) ->
  quiz_data s1 = Some qs ->
  List.length answers = List.length qs ->
  let K := count_matches qs answers in
  let N := len qs in
  0 <= K <= N /\
  exists s2 responses,
    submit_all answers s1 = Ok (s2, responses) /\
    show_result now uid s2 rows
    = ((rows ++ [Models.mkQuizResult (Models.next_id rows) uid K N now])%list,
       RenderResult K N (feedback_of (percent K N))).
Proof.
  intros Hstart Hqs Hlen K N.
  destruct (start_quiz_parse_started json_loads repr s0 s1 raw Hstart)
    as (data & qs' & _ & Hne & Hnorm & ->).
  cbn in Hqs. injection Hqs as ->.
  destruct (normalize_all_gradable repr data qs Hnorm) as (Hg & Hl).
  assert (qs <> []) as Hqne by (destruct qs, data; cbn in Hl; congruence).
  destruct (submit_all_run answers [] qs
              (mkSession (Some qs) (Some 0) (Some 0)
                         (last_explanation s0) (flashes s0)) 0)
    as (s2 & Hrun & Hd & Hi & Hk); auto.
  pose proof (count_matches_bounds qs answers) as Hb.
  split; [subst K N; lia|].
  exists s2, (routes (List.length qs)). split; [exact Hrun|].
  unfold show_result. cbn in Hd, Hk. rewrite Hd, Hk. cbn [get_or].
  fold N. fold K.
  assert ((0 <? N) = true) as ->; [|reflexivity].
  apply Z.ltb_lt. subst N. unfold len. destruct qs; [congruence | cbn; lia].
Qed.

End QuizRun.

(** The result page never rewrites or removes a row: the table afterwards
    is the table before with at most one row added, and with none exactly
    when the session holds no question. *)
Theorem show_result_table (now uid : Z) (s : session) (rows : Models.table) :
  exists new,
    fst (show_result now uid s rows) = (rows ++ new)%list /\
    (List.length new <= 1)%nat /\
    (new = [] <-> get_or (quiz_data s) [] = []).
Proof.
  rewrite show_result_rows. unfold len.
  destruct (get_or (quiz_data s) []) as [|q qs].
  - exists []. cbn. rewrite app_nil_r. repeat split; auto.
  - eexists [_]. cbn -[Models.next_id]. unfold Models.add.
    split; [reflexivity|]. split; [lia|]. split; discriminate.
Qed.

(* ================================================================== *)
(** * Registration and login *)
(* ================================================================== *)

(** The blueprint [auth/routes_auth.py].  The table [user] is a list of
    rows, oldest first; the browser session holds the id of the logged-in
    user (what [login_user] stores and [logout_user] removes) and the
    flashed messages.  [filter_by(email=email)] compares the column with
    the submitted text for equality. *)
Module Auth.

Record User : Type := mkUser {
  id : Z;
  email : string;
  password : string
}.

Definition table : Type := list User.

Inductive endpoint : Type :=
| register_view
| login_view
| home.

Inductive response : Type :=
| Redirect (target : endpoint)
| Render (template : string).

Record browser : Type := mkBrowser {
  user_id : option Z;
  messages : list string
}.

(** [flash(message)] *)
Definition flash (message : string) (b : browser) : browser :=
  mkBrowser (user_id b) (messages b ++ [message]).

(** [request.form[name]]: a missing field raises (a [KeyError] that Flask
    answers with status 400). *)
Definition field (f : form) (name : string) : result string :=
  match f name with
  | Some v => Ok v
  | None => Raise KeyError
  end.

(** [User.query.filter_by(email=email).first()] *)
Definition by_email (e : string) (users : table) : option User :=
  find (fun u => String.eqb (email u) e) users.

Definition next_id (users : table) : Z :=
  1 + fold_right (fun u m => Z.max (id u) m) 0 users.

Section Routes.

(** [generate_password_hash(password)]; its second argument is the salt
    the library draws. *)
Variable generate_password_hash : string -> string -> string.

(** [check_password_hash(pwhash, password)] *)
Variable check_password_hash : string -> string -> bool.

(** [register] *)
Definition register (method : http_method) (f : form) (salt : string)
           (users : table) (b : browser)
  : result (table * browser * response) :=
  match method with
  | POST =>
      e <- field f "email" ;;
      p <- field f "password" ;;
      match by_email e users with
      | Some _ =>
          Ok (users, flash "Email already exists!" b, Redirect register_view)
      | None =>
          let hashed := generate_password_hash p salt in
          let new_user := mkUser (next_id users) e hashed in
          Ok ((users ++ [new_user])%list,
              flash "Account created! You can login now." b,
              Redirect login_view)
      end
  | GET => Ok (users, b, Render "register.html")
  end.

(** [login] *)
Definition login (method : http_method) (f : form) (users : table)
           (b : browser) : result (browser * response) :=
  match method with
  | POST =>
      e <- field f "email" ;;
      p <- field f "password" ;;
      match by_email e users with
      | Some user =>
          if check_password_hash (password user) p
          then Ok (mkBrowser (Some (id user)) (messages b), Redirect home)
          else Ok (flash "Invalid Login!" b, Redirect login_view)
      | None => Ok (flash "Invalid Login!" b, Redirect login_view)
      end
  | GET => Ok (b, Render "login.html")
  end.

(** [logout], for a logged-in user. *)
Definition logout (b : browser) : browser * response :=
  (mkBrowser None (messages b), Redirect login_view).

End Routes.

Definition emails (users : table) : list string := map email users.

Lemma by_email_none (e : string) (users : table) :
  by_email e users = None <-> ~ In e (emails users).
Proof.
  unfold by_email, emails. induction users as [|u users IH]; cbn.
  - tauto.
  - destruct (String.eqb_spec (email u) e) as [->|Hne].
    + split; [discriminate | intros H; exfalso; auto].
    + rewrite IH. tauto.
Qed.

Lemma by_email_app_new (e : string) (users : table) (u : User) :
  by_email e users = None -> email u = e ->
  by_email e (users ++ [u])%list = Some u.
Proof.
  unfold by_email. intros Hnone He.
  induction users as [|u' users IH]; cbn in *.
  - rewrite He, String.eqb_refl. reflexivity.
  - destruct (String.eqb (email u') e); [discriminate | auto].
Qed.

Lemma by_email_unique (users : table) (u : User) :
  NoDup (emails users) -> In u users ->
  by_email (email u) users = Some u.
Proof.
  unfold by_email, emails. induction users as [|u' users IH]; cbn;
    intros Hnd Hin; [destruct Hin|].
  inversion Hnd as [|? ? Hnotin Hnd']; subst.
  destruct Hin as [->|Hin]; [now rewrite String.eqb_refl|].
  destruct (String.eqb_spec (email u') (email u)) as [E|_]; [|auto].
  exfalso. apply Hnotin. rewrite E. now apply in_map.
Qed.

Section RoutesFacts.

Variable generate_password_hash : string -> string -> string.
Variable check_password_hash : string -> string -> bool.

(** The contract of the two library functions: a hash checks against the
    password it was made from. *)
Hypothesis hash_checks :
  forall p salt, check_password_hash (generate_password_hash p salt) p = true.

(** Registering a new email and then logging in with the same email and
    password logs that user in: the row is added after the existing ones
    with the hash (not the password) stored, and the login redirects home
    with the new user's id in the session. *)
Theorem register_then_login
        (f : form) (salt e p : string) (users : table) (b : browser) :
  f "email" = Some e -> f "password" = Some p ->
  ~ In e (emails users) ->
  let new_user := mkUser (next_id users) e (generate_password_hash p salt) in
  let b1 := flash "Account created! You can login now." b in
  register generate_password_hash POST f salt users b
  = Ok ((users ++ [new_user])%list, b1, Redirect login_view) /\
  login check_password_hash POST f (users ++ [new_user])%list b1
  = Ok (mkBrowser (Some (id new_user)) (messages b1), Redirect home).
Proof.
  intros He Hp Hnew new_user b1.
  apply by_email_none in Hnew.
  unfold register, login, field. rewrite He, Hp. cbn [bind].
  rewrite Hnew. split; [reflexivity|].
  rewrite (by_email_app_new e users new_user Hnew eq_refl).
  cbn [password new_user]. now rewrite hash_checks.
Qed.

End RoutesFacts.

Section RoutesFrame.

Variable generate_password_hash : string -> string -> string.
Variable check_password_hash : string -> string -> bool.

(** Registering an email that is taken changes nothing in the table and
    logs nobody in: it flashes the message and returns to the form. *)
Theorem register_taken
        (f : form) (salt e p : string) (users : table) (b : browser) :
  f "email" = Some e -> f "password" = Some p ->
  In e (emails users) ->
  register generate_password_hash POST f salt users b
  = Ok (users, flash "Email already exists!" b, Redirect register_view).
Proof.
  intros He Hp Hin. unfold register, field. rewrite He, Hp. cbn [bind].
  destruct (by_email e users) eqn:E; [reflexivity|].
  apply by_email_none in E. contradiction.
Qed.

(** Registration keeps the emails of the table distinct, keeps every
    existing row, and never changes who is logged in. *)
Theorem register_invariant
        (method : http_method) (f : form) (salt : string)
        (users users' : table) (b b' : browser) (r : response) :
  NoDup (emails users) ->
  register generate_password_hash method f salt users b = Ok (users', b', r) ->
  NoDup (emails users') /\
  (exists new, users' = (users ++ new)%list /\ (List.length new <= 1)%nat) /\
  user_id b' = user_id b.
Proof.
  intros Hnd. unfold register.
  destruct method.
  - intros [= <- <- <-]. repeat split; auto.
    exists []. split; [now rewrite app_nil_r | cbn; lia].
  - destruct (field f "email") as [e|]; [|discriminate].
    destruct (field f "password") as [p|]; [|discriminate]. cbn [bind].
    destruct (by_email e users) eqn:E.
    + intros [= <- <- <-]. repeat split; auto.
      exists []. split; [now rewrite app_nil_r | cbn; lia].
    + intros [= <- <- <-]. apply by_email_none in E.
      split; [|split; [eexists [_]; split; [reflexivity | cbn; lia]
                      | reflexivity]].
      unfold emails in *. rewrite map_app. cbn [map email].
      apply NoDup_app; [exact Hnd | repeat constructor; intros [] |].
      intros x Hx [<-|[]]. contradiction.
Qed.

(** With distinct emails in the table, a wrong password for an existing
    account never logs in: the session keeps the user it had, the message
    is flashed and the login form comes back. *)
Theorem login_wrong_password
        (f : form) (p : string) (users : table) (u : User) (b : browser) :
  NoDup (emails users) -> In u users ->
  f "email" = Some (email u) -> f "password" = Some p ->
  check_password_hash (password u) p = false ->
  login check_password_hash POST f users b
  = Ok (flash "Invalid Login!" b, Redirect login_view).
Proof.
  intros Hnd Hin He Hp Hbad. unfold login, field. rewrite He, Hp. cbn [bind].
  now rewrite (by_email_unique users u Hnd Hin), Hbad.
Qed.

(** An email that is not in the table never logs in. *)
Theorem login_unknown_email
        (f : form) (e p : string) (users : table) (b : browser) :
  f "email" = Some e -> f "password" = Some p ->
  ~ In e (emails users) ->
  login check_password_hash POST f users b
  = Ok (flash "Invalid Login!" b, Redirect login_view).
Proof.
  intros He Hp Hnew. apply by_email_none in Hnew.
  unfold login, field. rewrite He, Hp. cbn [bind]. now rewrite Hnew.
Qed.

(** A POST that lacks the email or the password field raises before the
    table is read: no row is created and no message is flashed. *)
Theorem register_missing_field
        (f : form) (salt : string) (users : table) (b : browser) :
  f "email" = None \/ f "password" = None ->
  register generate_password_hash POST f salt users b = Raise KeyError.
Proof.
  intros H. unfold register, field.
  destruct (f "email"); cbn [bind]; [|reflexivity].
  destruct H as [H|H]; [discriminate | now rewrite H].
Qed.

End RoutesFrame.

End Auth.

(* ================================================================== *)
(** * Further worked examples *)
(* ================================================================== *)

Lemma example_questions_gradable : Forall gradable example_questions.
Proof.
  repeat constructor; unfold gradable, example_question;
    do 2 eexists; (split; [reflexivity|]); split; reflexivity.
Qed.

(** Two documents of user 7, the later one blank, and one of user 8. *)
Definition example_documents : list Store.Document :=
  [Store.mkDocument 1 (Some 7) (Some "sky.txt") (Some "The sky is blue.") None;
   Store.mkDocument 2 (Some 8) (Some "sea.txt") (Some "The sea is deep.") None;
   Store.mkDocument 3 (Some 7) (Some "scan.pdf") (Some "  ") None].

(** A mocked Generation Client that answers every prompt with the example
    response. *)
Definition example_client : string -> string := fun _ => example_raw.

Lemma start_quiz_view_latest_blank_witness :
  start_quiz_view JsonRef.loads repr_unused example_client example_documents 7
                  POST (form_of [("num_questions", "3")]) empty_session
  = upload_first empty_session.
Proof.
  apply (start_quiz_view_latest_blank JsonRef.loads repr_unused example_client
           example_documents 7 POST (form_of [("num_questions", "3")])
           empty_session
           (Store.mkDocument 3 (Some 7) (Some "scan.pdf") (Some "  ") None)).
  - right. right. left. reflexivity.
  - reflexivity.
  - intros d' [<-|[<-|[<-|[]]]] Hu.
    + right. cbn. lia.
    + discriminate Hu.
    + left. reflexivity.
  - reflexivity.
Defined.

Lemma start_quiz_view_no_document_witness :
  start_quiz_view JsonRef.loads repr_unused example_client example_documents 9
                  GET (form_of []) empty_session
  = upload_first empty_session.
Proof.
  apply (start_quiz_view_no_document JsonRef.loads repr_unused example_client
           example_documents 9 GET (form_of []) empty_session).
  intros d [<-|[<-|[<-|[]]]]; discriminate.
Defined.

(** A new quiz started over a finished one. *)
Definition restarted_session : session :=
  mkSession (Some example_questions) (Some 0) (Some 0) (Some (VStr "so")) [].

Lemma start_quiz_started_witness :
  quiz_index restarted_session = Some 0 /\
  quiz_score restarted_session = Some 0 /\
  flashes restarted_session = flashes completed_session /\
  exists qs, quiz_data restarted_session = Some qs /\ qs <> [] /\
             Forall gradable qs.
Proof.
  apply (start_quiz_started JsonRef.loads repr_unused example_client POST
           (Some (Models.mkDocument (Some "The sky is blue.")))
           (form_of [("num_questions", "2"); ("difficulty", "easy")])
           completed_session restarted_session).
  vm_compute. reflexivity.
Defined.

Lemma start_quiz_parse_raises_witness :
  start_quiz_parse JsonRef.loads repr_unused empty_session
    ("[" ++ example_mid ++ ", 5]") = Raise AttributeError \/
  start_quiz_parse JsonRef.loads repr_unused empty_session
    ("[" ++ example_mid ++ ", 5]") = Raise TypeError.
Proof.
  apply (start_quiz_parse_raises JsonRef.loads repr_unused empty_session
           ("[" ++ example_mid ++ ", 5]") example_questions [] (VInt 5)).
  - vm_compute. reflexivity.
  - reflexivity.
  - reflexivity.
Defined.

Definition bare_question : value :=
  VDict [("question", VStr "Why?"); ("options", VList [VStr "yes"; VStr "no"]);
         ("explanation", VStr "")].

Definition bare_question_normalised : value :=
  VDict [("question", VStr "Why?");
         ("options", VList [VStr "A) yes"; VStr "B) no"]);
         ("explanation", VStr no_explanation); ("correct", VStr "A")].

Lemma normalize_question_explanation_witness :
  exists e,
    field "explanation" bare_question_normalised = Some e /\ truthy e = true /\
    (forall e0, field "explanation" bare_question = Some e0 ->
                truthy e0 = true -> e = e0) /\
    (field "explanation" bare_question = None -> e = VStr no_explanation) /\
    (forall e0, field "explanation" bare_question = Some e0 ->
                truthy e0 = false -> e = VStr no_explanation) /\
    (forall k, k <> "options" -> k <> "correct" -> k <> "explanation" ->
               field k bare_question_normalised = field k bare_question).
Proof.
  apply (normalize_question_explanation repr_unused bare_question
           bare_question_normalised).
  reflexivity.
Defined.

Lemma normalize_all_pointwise_witness :
  List.length [bare_question_normalised] = List.length [bare_question] /\
  forall i q, nth_error [bare_question] i = Some q ->
              exists q', nth_error [bare_question_normalised] i = Some q' /\
                         normalize_question repr_unused q = Ok q'.
Proof.
  apply (normalize_all_pointwise repr_unused [bare_question]
           [bare_question_normalised]).
  reflexivity.
Defined.

Lemma show_question_in_progress_witness :
  show_question started_session
  = Ok (started_session,
        RenderQuestion (Z.of_nat 0 + 1) (len example_questions)
                       (example_question "Q1" "B" "because")).
Proof.
  apply (show_question_in_progress started_session example_questions 0
           (example_question "Q1" "B" "because")); reflexivity.
Defined.

Lemma show_question_read_only_witness :
  quiz_data completed_session = quiz_data completed_session /\
  quiz_index completed_session = quiz_index completed_session /\
  quiz_score completed_session = quiz_score completed_session /\
  (get_or (quiz_data completed_session) [] = [] ->
   Redirect quiz_show_result = Redirect quiz_start_quiz) /\
  (get_or (quiz_data completed_session) [] <> [] ->
   len (get_or (quiz_data completed_session) [])
   <= get_or (quiz_index completed_session) 0 ->
   Redirect quiz_show_result = Redirect quiz_show_result).
Proof.
  apply (show_question_read_only completed_session completed_session
           (Redirect quiz_show_result)).
  reflexivity.
Defined.

Lemma submit_answer_invariant_witness :
  exists s' r i' k',
    submit_answer (form_of [("answer", "b")]) started_session = Ok (s', r) /\
    quiz_data s' = Some example_questions /\
    quiz_index s' = Some i' /\ quiz_score s' = Some k' /\
    0 <= k' <= i' /\ i' <= len example_questions /\
    0 <= k' <= 0 + 1 /\
    i' = (if 0 <? len example_questions then 0 + 1 else 0) /\
    (r = Redirect quiz_show_result <-> i' = len example_questions).
Proof.
  apply (submit_answer_invariant (form_of [("answer", "b")]) started_session
           example_questions 0 0).
  - reflexivity.
  - exact example_questions_gradable.
  - reflexivity.
  - reflexivity.
  - lia.
  - cbn. lia.
Defined.

Definition one_answer : list form := [form_of [("answer", "b")]].

Definition two_answers : list form :=
  [form_of [("answer", " b ")]; form_of [("answer", "A")]].

Lemma quiz_midway_witness :
  exists s2 q,
    submit_all one_answer started_session
    = Ok (s2, repeat (Redirect quiz_show_question) (List.length one_answer)) /\
    quiz_score s2 = Some (count_matches example_questions one_answer) /\
    0 <= count_matches example_questions one_answer
      <= Z.of_nat (List.length one_answer) /\
    nth_error example_questions (List.length one_answer) = Some q /\
    show_question s2
    = Ok (s2, RenderQuestion (Z.of_nat (List.length one_answer) + 1)
                             (len example_questions) q).
Proof.
  apply (quiz_midway JsonRef.loads repr_unused empty_session started_session
           example_raw example_questions one_answer).
  - vm_compute. reflexivity.
  - reflexivity.
  - cbn. lia.
Defined.

Lemma quiz_recorded_witness :
  0 <= count_matches example_questions two_answers <= len example_questions /\
  exists s2 responses,
    submit_all two_answers started_session = Ok (s2, responses) /\
    show_result 1000 7 s2 []
    = (([] ++ [Models.mkQuizResult (Models.next_id []) 7
                 (count_matches example_questions two_answers)
                 (len example_questions) 1000])%list,
       RenderResult (count_matches example_questions two_answers)
                    (len example_questions)
                    (feedback_of (percent
                       (count_matches example_questions two_answers)
                       (len example_questions)))).
Proof.
  apply (quiz_recorded JsonRef.loads repr_unused empty_session started_session
           example_raw example_questions two_answers 1000 7 []).
  - vm_compute. reflexivity.
  - reflexivity.
  - reflexivity.
Defined.

Lemma feedback_exact_witness :
  feedback_of (percent 8 10) = tier_exact 8 10.
Proof. apply (feedback_exact 8 10); lia. Defined.

(** A stand-in for the password hashing of the library, without any
    hashing: the examples only need a pair that satisfies its contract. *)
Definition plain_hash : string -> string -> string := fun p _ => p.

Definition plain_check : string -> string -> bool := String.eqb.

Lemma plain_hash_checks (p salt : string) :
  plain_check (plain_hash p salt) p = true.
Proof. apply String.eqb_refl. Qed.

Definition example_users : Auth.table :=
  [Auth.mkUser 1 "ann@example.org" "secret"].

Definition example_browser : Auth.browser := Auth.mkBrowser None [].

Definition bob_form : form :=
  form_of [("email", "bob@example.org"); ("password", "hunter2")].

Definition ann_form (password : string) : form :=
  form_of [("email", "ann@example.org"); ("password", password)].

Lemma register_then_login_witness :
  Auth.register plain_hash POST bob_form "salt" example_users example_browser
  = Ok ((example_users ++ [Auth.mkUser (Auth.next_id example_users)
                             "bob@example.org" (plain_hash "hunter2" "salt")])%list,
        Auth.flash "Account created! You can login now." example_browser,
        Auth.Redirect Auth.login_view) /\
  Auth.login plain_check POST bob_form
    (example_users ++ [Auth.mkUser (Auth.next_id example_users)
                         "bob@example.org" (plain_hash "hunter2" "salt")])%list
    (Auth.flash "Account created! You can login now." example_browser)
  = Ok (Auth.mkBrowser
          (Some (Auth.id (Auth.mkUser (Auth.next_id example_users)
                            "bob@example.org" (plain_hash "hunter2" "salt"))))
          (Auth.messages
             (Auth.flash "Account created! You can login now." example_browser)),
        Auth.Redirect Auth.home).
Proof.
  apply (Auth.register_then_login plain_hash plain_check plain_hash_checks
           bob_form "salt" "bob@example.org" "hunter2" example_users
           example_browser).
  - reflexivity.
  - reflexivity.
  - intros [H|[]]. discriminate H.
Defined.

Lemma register_taken_witness :
  Auth.register plain_hash POST (ann_form "other") "salt" example_users
                example_browser
  = Ok (example_users, Auth.flash "Email already exists!" example_browser,
        Auth.Redirect Auth.register_view).
Proof.
  apply (Auth.register_taken plain_hash (ann_form "other") "salt"
           "ann@example.org" "other" example_users example_browser).
  - reflexivity.
  - reflexivity.
  - left. reflexivity.
Defined.

Lemma register_invariant_witness :
  NoDup (Auth.emails example_users) /\
  (exists new, example_users = (example_users ++ new)%list /\
               (List.length new <= 1)%nat) /\
  Auth.user_id (Auth.flash "Email already exists!" example_browser)
  = Auth.user_id example_browser.
Proof.
  apply (Auth.register_invariant plain_hash POST (ann_form "other") "salt"
           example_users example_users example_browser
           (Auth.flash "Email already exists!" example_browser)
           (Auth.Redirect Auth.register_view)).
  - repeat constructor. intros [].
  - reflexivity.
Defined.

Lemma login_wrong_password_witness :
  Auth.login plain_check POST (ann_form "guess") example_users example_browser
  = Ok (Auth.flash "Invalid Login!" example_browser,
        Auth.Redirect Auth.login_view).
Proof.
  apply (Auth.login_wrong_password plain_check (ann_form "guess") "guess"
           example_users (Auth.mkUser 1 "ann@example.org" "secret")
           example_browser).
  - repeat constructor. intros [].
  - left. reflexivity.
  - reflexivity.
  - reflexivity.
  - reflexivity.
Defined.

Lemma login_unknown_email_witness :
  Auth.login plain_check POST bob_form example_users example_browser
  = Ok (Auth.flash "Invalid Login!" example_browser,
        Auth.Redirect Auth.login_view).
Proof.
  apply (Auth.login_unknown_email plain_check bob_form "bob@example.org"
           "hunter2" example_users example_browser).
  - reflexivity.
  - reflexivity.
  - intros [H|[]]. discriminate H.
Defined.

Lemma register_missing_field_witness :
  Auth.register plain_hash POST (form_of [("email", "bob@example.org")])
                "salt" example_users example_browser
  = Raise KeyError.
Proof.
  apply (Auth.register_missing_field plain_hash
           (form_of [("email", "bob@example.org")]) "salt" example_users
           example_browser).
  right. reflexivity.
Defined.
